(** * Weekplan view: the reconciliation engine of [src/main.ts]

    A shallow embedding of the [WeekplanView] class of the plugin: the
    document held in [this.yamlData], the status reconciler
    [updateTaskStatuses], the calendar callbacks ([handleEventChange],
    [eventClick]), the Outlook sync button and the source-mode toggle,
    followed by the theorems that relate them to the written specification.

    Conventions of the embedding.
    - JavaScript numbers are binary64 floats ([PrimFloat.float]), with the
      IEEE comparisons and the truthiness rule of [x || d] written out.
    - A property that holds a date ([start], [end]) is represented by what the
      code observes of it: whether it is truthy, and the time value
      [new Date(v).getTime()] it denotes (an integral number of
      milliseconds, or NaN).
    - Objects are records with the properties the code reads; optional
      properties are [option]s. Every other property of an event is kept in
      [ev_extra], so that the object spread of [handleEventChange] has
      something to preserve.
    - Handlers are functions from the view state to the new view state and the
      list of effects they emit (notices, writes to the vault, an uncaught
      [TypeError]). *)

From Stdlib Require Import ZArith Lia Bool.
From Stdlib Require Uint63.
From Stdlib Require Import Floats.
From stdpp Require Import base option list sorting strings pretty gmap.

Local Open Scope string_scope.
Local Open Scope list_scope.
Local Open Scope Z_scope.

(** ** JavaScript values *)

Module Js.

(** [x || d] on numbers: [x] is falsy when it is [NaN], [0] or [-0]. *)
Definition falsy (x : float) : bool := PrimFloat.is_nan x || PrimFloat.is_zero x.

Definition or (x d : float) : float := if falsy x then d else x.

(** Truthiness of a string: only the empty string is falsy. *)
Definition str_truthy (s : string) : bool :=
  match s with EmptyString => false | _ => true end.

(** An integral number as a Number. Exact for [|z| < 2^53], which covers
    every time value ([|t| <= 8.64e15]). *)
Definition of_Z (z : Z) : float :=
  match z with
  | Z0 => 0%float
  | Zpos _ => of_uint63 (Uint63.of_Z z)
  | Zneg p => (- of_uint63 (Uint63.of_Z (Zpos p)))%float
  end.

(** The value of a [start] or [end] property. *)
Inductive date : Type :=
| DateAbsent              (* property missing, or the empty string *)
| DateNull                (* [null], [0] or [false]: falsy, [new Date(v)] is the epoch *)
| DateInvalid             (* present, but [new Date(v)] is an invalid date *)
| DateAt (ms : Z).        (* present, [new Date(v).getTime() = ms] *)

Definition date_truthy (d : date) : bool :=
  match d with DateAbsent | DateNull => false | _ => true end.

(** [new Date(v).getTime()] as an integer, [None] standing for [NaN]. *)
Definition time_value (d : date) : option Z :=
  match d with
  | DateAt ms => Some ms
  | DateNull => Some 0
  | DateAbsent | DateInvalid => None
  end.

(** [new Date(v).getTime()] as a Number. *)
Definition getTime (d : date) : float :=
  match time_value d with Some ms => of_Z ms | None => nan end.

End Js.

(** ** The document ([this.yamlData]) *)

Record Event : Type := mkEvent {
  ev_id : string;
  ev_taskId : option string;
  ev_type : string;
  ev_title : string;
  ev_start : Js.date;
  ev_end : Js.date;
  ev_color : option string;
  ev_extra : list (string * string)
}.

(** [estimated_hours] is represented by the number [parseFloat] returns on
    it: [NaN] when the property is absent or does not start with a number. *)
Record Task : Type := mkTask {
  task_id : string;
  task_title : string;
  estimated_hours : float;
  status : string
}.

Record Goal : Type := mkGoal {
  role : string;
  items : option (list Task)
}.

Record Document : Type := mkDocument {
  insight : string;
  goals : option (list Goal);
  events : option (list Event)
}.

Definition set_status (s : string) (t : Task) : Task :=
  {| task_id := task_id t; task_title := task_title t;
     estimated_hours := estimated_hours t; status := s |}.

Definition set_items (its : option (list Task)) (g : Goal) : Goal :=
  {| role := role g; items := its |}.

Definition set_goals (gs : option (list Goal)) (d : Document) : Document :=
  {| insight := insight d; goals := gs; events := events d |}.

Definition set_events (evs : option (list Event)) (d : Document) : Document :=
  {| insight := insight d; goals := goals d; events := evs |}.

(** The task at position [j] of the goal at position [i]. *)
Definition task_at (d : Document) (i j : nat) : option Task :=
  gs ← goals d; g ← gs !! i; its ← items g; its !! j.

(** ** Status reconciler: [updateTaskStatuses] *)

(** [ev.taskId || ev.id] *)
Definition linkedTaskId (ev : Event) : string :=
  match ev_taskId ev with
  | Some t => if Js.str_truthy t then t else ev_id ev
  | None => ev_id ev
  end.

(** [(end - start) / (1000 * 60 * 60)] *)
Definition eventHours (ev : Event) : float :=
  ((Js.getTime (ev_end ev) - Js.getTime (ev_start ev)) / (1000 * 60 * 60))%float.

(** [taskHours.get(id) || 0] *)
Definition getHours (taskHours : gmap string float) (id : string) : float :=
  match taskHours !! id with
  | Some h => Js.or h 0
  | None => 0%float
  end.

(** The body of the first [forEach]: one event added to the map. *)
Definition addEventHours (taskHours : gmap string float) (ev : Event)
  : gmap string float :=
  if decide (ev_type ev = "task") then
    let taskId := linkedTaskId ev in
    if Js.date_truthy (ev_start ev) && Js.date_truthy (ev_end ev) then
      <[taskId := (getHours taskHours taskId + eventHours ev)%float]> taskHours
    else taskHours
  else taskHours.

(** [this.yamlData.events?.forEach(...)] on an empty map. *)
Definition collectTaskHours (evs : option (list Event)) : gmap string float :=
  match evs with
  | Some l => foldl addEventHours ∅ l
  | None => ∅
  end.

Definition isManual (s : string) : bool :=
  bool_decide (s = "dropped") || bool_decide (s = "completed").

(** The three-way test at the end of the inner [forEach]. *)
Definition deriveStatus (totalScheduled estimated : float) : string :=
  if (totalScheduled =? 0)%float then "pool"
  else if (totalScheduled <? estimated)%float then "partial"
  else "scheduled".

(** The body of the inner [forEach]: one task updated. *)
Definition updateTask (taskHours : gmap string float) (task : Task) : Task :=
  if isManual (status task) then task
  else
    let totalScheduled := getHours taskHours (task_id task) in
    let estimated := Js.or (estimated_hours task) 1 in
    set_status (deriveStatus totalScheduled estimated) task.

Definition updateGoal (taskHours : gmap string float) (g : Goal) : Goal :=
  set_items (fmap (M:=list) (updateTask taskHours) <$> items g) g.

Definition updateTaskStatuses (d : Document) : Document :=
  match goals d with
  | None => d
  | Some gs =>
      let taskHours := collectTaskHours (events d) in
      set_goals (Some (updateGoal taskHours <$> gs)) d
  end.

(** ** [Array.prototype.sort] with the comparator on [start] *)

(** The sign [sort] reads off
    [new Date(a.start).getTime() - new Date(b.start).getTime()]. A [NaN]
    difference counts as [+0]. Time values are integers below [2^53], so the
    sign of the double difference is the sign of the exact one. *)
Definition compareStart (a b : Event) : comparison :=
  match Js.time_value (ev_start a), Js.time_value (ev_start b) with
  | Some x, Some y => Z.compare x y
  | _, _ => Eq
  end.

(** ECMAScript fixes the result of [sort] when the comparator is consistent,
    which it is when every [start] denotes a time: the sort is stable, and the
    stable sorted arrangement of a list is unique. Stable insertion computes
    it. With a [start] that is not a date the comparator answers [NaN] and
    the order is the engine's own, which stable insertion need not give: what
    is proved below of the handlers then uses [sortByStart] as a
    rearrangement only, and states an order under the hypothesis that every
    [start] denotes a time. *)
Fixpoint insertByStart (x : Event) (l : list Event) : list Event :=
  match l with
  | [] => [x]
  | y :: l' =>
      match compareStart x y with
      | Gt => y :: insertByStart x l'
      | _ => x :: y :: l'
      end
  end.

Definition sortByStart (l : list Event) : list Event :=
  foldr insertByStart [] l.

(** ** The calendar's event objects and [handleEventChange] *)

(** What the handlers read of a FullCalendar [EventApi]: [start] is a [Date]
    (its time value), [end] may be [null], [extendedProps] may lack [type]
    and [taskId]. *)
Record CalEvent : Type := mkCalEvent {
  cal_id : string;
  cal_title : string;
  cal_start : Z;
  cal_end : option Z;
  cal_backgroundColor : string;
  cal_type : option string;
  cal_taskId : option string
}.

(** [formatLocalISO] prints the local wall-clock time with the seconds set to
    [00]. The stored text is represented by the time [new Date] reads back
    from it, taken to be the same instant with seconds and milliseconds
    dropped. That is what the engine does for a date in the years 1000 to
    9999 of a zone whose offset is a whole number of minutes, away from the
    hour a zone repeats when its clocks are set back: there the text is read
    as the first of the two instants, and outside those years it is not read
    as a date at all. Neither case is covered by this definition. *)
Definition formatLocalISO (date : Z) : Js.date :=
  Js.DateAt (60000 * (date / 60000)).

Definition defaultColor : string := "#10b981".

(** [event.extendedProps?.taskId || event.id] *)
Definition calTaskId (event : CalEvent) : string :=
  match cal_taskId event with
  | Some t => if Js.str_truthy t then t else cal_id event
  | None => cal_id event
  end.

(** [event.end ? formatLocalISO(event.end) : formatLocalISO(start + 1h)] *)
Definition calEnd (event : CalEvent) : Js.date :=
  match cal_end event with
  | Some e => formatLocalISO e
  | None => formatLocalISO (cal_start event + 60 * 60 * 1000)
  end.

(** [event.backgroundColor || '#10b981'] *)
Definition calColor (event : CalEvent) : string :=
  if Js.str_truthy (cal_backgroundColor event)
  then cal_backgroundColor event else defaultColor.

Definition newEventData (event : CalEvent) : Event :=
  {| ev_id := cal_id event;
     ev_taskId := Some (calTaskId event);
     ev_type := "task";
     ev_title := cal_title event;
     ev_start := formatLocalISO (cal_start event);
     ev_end := calEnd event;
     ev_color := Some (calColor event);
     ev_extra := [] |}.

(** [{ ...old, ...newEventData }]: [newEventData] defines the seven named
    properties, so only the other properties of [old] survive. *)
Definition spread (old new : Event) : Event :=
  {| ev_id := ev_id new;
     ev_taskId := ev_taskId new;
     ev_type := ev_type new;
     ev_title := ev_title new;
     ev_start := ev_start new;
     ev_end := ev_end new;
     ev_color := ev_color new;
     ev_extra := ev_extra old |}.

(** [events.findIndex(e => e.id === id)], [None] for [-1]. *)
Fixpoint findIndex (id : string) (l : list Event) : option nat :=
  match l with
  | [] => None
  | e :: l' =>
      if decide (ev_id e = id) then Some 0%nat else S <$> findIndex id l'
  end.

(** The [if (eventIndex >= 0) ... else ...] of [handleEventChange]. *)
Definition putEvent (evs : list Event) (new : Event) : list Event :=
  match findIndex (ev_id new) evs with
  | Some i =>
      match evs !! i with
      | Some old => <[i := spread old new]> evs
      | None => evs
      end
  | None => evs ++ [new]
  end.

(** The document part of [handleEventChange]; [None] is the [TypeError] of
    [this.yamlData.events.findIndex] when the document has no [events]. *)
Definition applyCalendarChange (d : Document) (event : CalEvent)
  : option Document :=
  evs ← events d;
  Some (updateTaskStatuses
          (set_events (Some (sortByStart (putEvent evs (newEventData event)))) d)).

(** ** External sync: the merge done by the sync button *)

Definition notOutlook (ev : Event) : Prop := ev_type ev ≠ "outlook".

#[global] Instance notOutlook_dec ev : Decision (notOutlook ev).
Proof. unfold notOutlook. apply _. Defined.

(** [if (!currentData.events) currentData.events = [];] and the [filter]. *)
Definition dropOutlook (d : Document) : Document :=
  set_events (Some (filter notOutlook (default [] (events d)))) d.

(** The statements of the [try] block after [JSON.parse], for an array of
    records. *)
Definition mergeExternal (d : Document) (newEvents : list Event) : Document :=
  set_events
    (Some (sortByStart (filter notOutlook (default [] (events d)) ++ newEvents)))
    d.

(** ** The view and its handlers *)

Inductive Pane : Type := VisualPane | SourcePane.

Record View : Type := mkView {
  file : bool;                (* [this.file] is not null *)
  yamlData : Document;
  isSourceMode : bool;
  sourceText : string;        (* [this.sourceContainer.value] *)
  shown : Pane                (* which container is displayed *)
}.

Definition set_yamlData (d : Document) (v : View) : View :=
  {| file := file v; yamlData := d; isSourceMode := isSourceMode v;
     sourceText := sourceText v; shown := shown v |}.

Inductive Notice : Type :=
| NoticeFetching        (* fetching the Outlook events *)
| NoticeFetchFailed     (* the fetch failed *)
| NoticeSynced          (* the events were synchronised *)
| NoticeParseFailed     (* the data could not be parsed *)
| NoticeSystemError     (* system error *)
| NoticeOutlookFixed    (* fixed Outlook events cannot be changed *)
| NoticeDeleted         (* the block was deleted *)
| NoticeYamlSyntax.     (* the YAML has a syntax error *)

Inductive Effect : Type :=
| Notify (n : Notice)           (* [new Notice(...)] *)
| VaultModify (data : string)   (* [this.app.vault.modify(this.file, data)] *)
| Uncaught.                     (* a [TypeError] leaves the handler *)

(** What [exec] hands to its callback, with [stdout] classified by what
    [JSON.parse] and the spread [push(...newEvents)] make of it. Two kinds of
    output have no case here: a JSON string, which the spread takes apart
    into characters, and an array with an entry that is not a record (with
    [null] the comparator of the sort throws after the entries are stored). *)
Inductive Payload : Type :=
| JsonSyntaxError                    (* [JSON.parse] throws *)
| JsonNotIterable                    (* an object, number, boolean or null *)
| JsonArray (entries : list Event).  (* an array of records *)

Inductive ExecResult : Type :=
| RequireFailed                 (* [require] throws before [exec] runs *)
| ExecError                     (* the callback gets a non-null [error] *)
| ExecStdout (parsed : Payload).

Inductive Action : Type := Receive | Update.

Inductive Gesture : Type :=
| EventReceive
| EventDrop
| EventResize
| EventClick (confirmed : bool).   (* with the answer to [confirm] *)

Section Handlers.

(** The serializer is outside the engine. [yaml_load] is [None] where
    [yaml.load] throws. *)
Variable yaml_load : string → option Document.
Variable yaml_dump : Document → string.

Definition save (v : View) (data : string) : list Effect :=
  if file v then [VaultModify data] else [].

Definition handleEventChange (v : View) (event : CalEvent) (action : Action)
  : View * list Effect :=
  if negb (file v) then (v, [])
  else
    match applyCalendarChange (yamlData v) event with
    | None => (v, [Uncaught])
    | Some d => (set_yamlData d v, save v (yaml_dump d))
    end.

Definition eventClick (v : View) (event : CalEvent) (confirmed : bool)
  : View * list Effect :=
  if decide (cal_type event = Some "outlook") then
    (v, [Notify NoticeOutlookFixed])
  else if confirmed then
    match events (yamlData v) with
    | None => (v, [Uncaught])
    | Some evs =>
        let d :=
          updateTaskStatuses
            (set_events
               (Some (filter (λ e, ev_id e ≠ cal_id event) evs)) (yamlData v)) in
        (set_yamlData d v, save v (yaml_dump d) ++ [Notify NoticeDeleted])
    end
  else (v, []).

(** The calendar options [eventReceive], [eventDrop], [eventResize] and
    [eventClick]. *)
Definition calendarCallback (v : View) (g : Gesture) (event : CalEvent)
  : View * list Effect :=
  match g with
  | EventReceive => handleEventChange v event Receive
  | EventDrop => handleEventChange v event Update
  | EventResize => handleEventChange v event Update
  | EventClick confirmed => eventClick v event confirmed
  end.

(** The click handler of the sync button, given what the external process
    produced. *)
Definition syncClick (v : View) (r : ExecResult) : View * list Effect :=
  match r with
  | RequireFailed => (v, [Notify NoticeFetching; Notify NoticeSystemError])
  | ExecError => (v, [Notify NoticeFetching; Notify NoticeFetchFailed])
  | ExecStdout JsonSyntaxError =>
      (v, [Notify NoticeFetching; Notify NoticeParseFailed])
  | ExecStdout JsonNotIterable =>
      (* the filter has run when the spread throws *)
      (set_yamlData (dropOutlook (yamlData v)) v,
       [Notify NoticeFetching; Notify NoticeParseFailed])
  | ExecStdout (JsonArray newEvents) =>
      let d := mergeExternal (yamlData v) newEvents in
      (set_yamlData d v,
       Notify NoticeFetching :: save v (yaml_dump d) ++ [Notify NoticeSynced])
  end.

(** The click handler of the mode button. *)
Definition toggleModeClick (v : View) : View * list Effect :=
  if negb (isSourceMode v) then
    ({| file := file v; yamlData := yamlData v; isSourceMode := true;
        sourceText := yaml_dump (yamlData v); shown := SourcePane |}, [])
  else
    let newText := sourceText v in
    match yaml_load newText with
    | Some _ =>
        ({| file := file v; yamlData := yamlData v; isSourceMode := false;
            sourceText := sourceText v; shown := VisualPane |},
         save v newText)
    | None =>
        ({| file := file v; yamlData := yamlData v; isSourceMode := true;
            sourceText := sourceText v; shown := shown v |},
         [Notify NoticeYamlSyntax])
    end.

End Handlers.

(** ** The reconciler in the words of the specification *)

(** An event is linked to the task [id]: it has type [task] and its [taskId]
    (its [id] when it has none) is [id]. *)
Definition linkedTo (id : string) (ev : Event) : Prop :=
  ev_type ev = "task" ∧ linkedTaskId ev = id.

(** Both [ev.start] and [ev.end] are truthy. *)
Definition hasDates (ev : Event) : Prop :=
  Js.date_truthy (ev_start ev) = true ∧ Js.date_truthy (ev_end ev) = true.

#[global] Instance linkedTo_dec id ev : Decision (linkedTo id ev).
Proof. unfold linkedTo. apply _. Defined.

#[global] Instance hasDates_dec ev : Decision (hasDates ev).
Proof. unfold hasDates. apply _. Defined.



(** The running total the code keeps for [id]: events without a [start] or an
    [end] are passed over, and a running total that is [NaN] restarts at [0]. *)
Definition scheduledHours (evs : list Event) (id : string) : float :=
  foldl (λ acc ev, Js.or acc 0 + eventHours ev)%float 0%float
    (filter (λ ev, linkedTo id ev ∧ hasDates ev) evs).


(** ** Order by [start] *)

(** The event's [start] denotes a time. *)
Definition hasStart (ev : Event) : Prop :=
  is_Some (Js.time_value (ev_start ev)).

(** Both events have a time as [start], and [a]'s is not after [b]'s. *)
Definition startsNoLater (a b : Event) : Prop :=
  ∃ x y, Js.time_value (ev_start a) = Some x ∧
         Js.time_value (ev_start b) = Some y ∧ x ≤ y.

(** Non-decreasing by [start]. *)
Definition sortedByStart (l : list Event) : Prop :=
  StronglySorted startsNoLater l.

(** C8 as the specification states it, for one list: of two events that
    both have a time as [start], the one stored first does not start later.
    Events whose [start] is not a time are not compared. *)
Definition orderedByStart (l : list Event) : Prop :=
  ∀ i j a b x y,
    (i < j)%nat → l !! i = Some a → l !! j = Some b →
    Js.time_value (ev_start a) = Some x →
    Js.time_value (ev_start b) = Some y → x ≤ y.

(** The event starts at the time [k]. *)
Definition startsAt (k : Z) (ev : Event) : Prop :=
  Js.time_value (ev_start ev) = Some k.

#[global] Instance startsAt_dec k ev : Decision (startsAt k ev).
Proof. unfold startsAt. apply _. Defined.

(** ** The sync and the calendar change in the words of the specification *)

Definition set_type (ty : string) (ev : Event) : Event :=
  {| ev_id := ev_id ev; ev_taskId := ev_taskId ev; ev_type := ty;
     ev_title := ev_title ev; ev_start := ev_start ev; ev_end := ev_end ev;
     ev_color := ev_color ev; ev_extra := ev_extra ev |}.

(** The merge as the specification describes it: the existing [outlook]
    events removed, the incoming entries appended and tagged [outlook], the
    events sorted by [start], and the reconciler run. *)
Definition mergeExternal_claimed (d : Document) (batch : list Event) : Document :=
  updateTaskStatuses
    (set_events
       (Some (sortByStart (filter notOutlook (default [] (events d))
                           ++ (set_type "outlook" <$> batch))))
       d).

(** C7 as the specification states it, for one document and one calendar
    event: when a stored event has the incoming id, the document afterwards
    holds an event with that id and with the stored [taskId] and [type]. *)
Definition change_keeps_link (d : Document) (event : CalEvent) : Prop :=
  ∀ evs i old,
    events d = Some evs →
    findIndex (cal_id event) evs = Some i → evs !! i = Some old →
    ∃ d' evs' new,
      applyCalendarChange d event = Some d' ∧ events d' = Some evs' ∧
      new ∈ evs' ∧ ev_id new = ev_id old ∧
      ev_taskId new = ev_taskId old ∧ ev_type new = ev_type old.

(** ** Sample documents, events and views *)

(** Midnight of 2026-02-16 as a time value, and a clock time on that day. *)
Definition day0 : Z := 1771200000000.
Definition clockMs (h m : Z) : Z := day0 + h * 3600000 + m * 60000.
Definition clock (h m : Z) : Js.date := Js.DateAt (clockMs h m).

(** A block scheduled for a task, and a document with one role. *)
Definition block (id taskId : string) (s e : Js.date) : Event :=
  mkEvent id (Some taskId) "task" "block" s e (Some defaultColor) [].

Definition plan (tasks : list Task) (evs : list Event) : Document :=
  mkDocument "" (Some [mkGoal "work" (Some tasks)]) (Some evs).

(** A task whose [estimated_hours] is [0], with a half-hour block. *)
Definition zero_estimate_plan : Document :=
  plan [mkTask "t1" "inbox" 0 "pool"]
       [block "e1" "t1" (clock 9 0) (clock 9 30)].

(** A document whose task has a block scheduled but still says [pool], as a
    file written outside the view may. *)
Definition unreconciled_plan : Document :=
  plan [mkTask "t1" "report" 2 "pool"]
       [block "e1" "t1" (clock 9 0) (clock 10 0)].

(** A fixed event as the external source delivers it. *)
Definition meeting (id : string) (s e : Js.date) : Event :=
  mkEvent id None "outlook" "meeting" s e None [].

(** A view opened on a document, in visual mode. *)
Definition open_view (d : Document) : View := mkView true d false "" VisualPane.

(** A serializer for the examples: what is written does not matter there. *)
Definition no_dump (d : Document) : string := "".

(** The block [e1] of [unreconciled_plan], dragged to 11:00 by a calendar
    event that carries no [taskId]. *)
Definition drag_block : CalEvent :=
  mkCalEvent "e1" "block" (clockMs 11 0) (Some (clockMs 12 0)) defaultColor
             (Some "task") None.

(** A document with one fixed event, and the calendar's object for it as
    [setViewData] builds it, dragged from 10:00 to 13:00. *)
Definition fixed_plan : Document :=
  plan [mkTask "t1" "report" 2 "pool"]
       [meeting "o1" (clock 10 0) (clock 11 0)].

Definition drag_meeting : CalEvent :=
  mkCalEvent "o1" "meeting" (clockMs 13 0) (Some (clockMs 14 0)) "#3b82f6"
             (Some "outlook") (Some "o1").

(** A reconciled document with one block. *)
Definition settled_plan : Document :=
  plan [mkTask "t1" "report" 2 "partial"]
       [block "e1" "t1" (clock 9 0) (clock 10 0)].

(** A parser for the examples: it accepts the empty text only. *)
Definition toy_load (text : string) : option Document :=
  if decide (text = "") then Some (mkDocument "" (Some []) (Some [])) else None.

(** ** The left panel: the status icon, the add button, the drag source *)

(** [task.status] after a click on the icon, before the reconciler runs. *)
Definition nextStatus (s : string) : string :=
  if decide (s = "completed") then "dropped"
  else if decide (s = "dropped") then "pool"
  else "completed".

(** An assignment to the task object at position [j] of the goal at
    position [i]. *)
Definition alter_task (f : Task → Task) (i j : nat) (d : Document) : Document :=
  set_goals (alter (λ g, set_items (alter f j <$> items g) g) i <$> goals d) d.

(** The document part of the click handler of a task's icon: the status
    moves one step, and leaving [dropped] runs the reconciler. The handler
    closes over the task object; here it is named by its position. *)
Definition cycleStatus (d : Document) (i j : nat) : Document :=
  match task_at d i j with
  | None => d
  | Some task =>
      let d' := alter_task (set_status (nextStatus (status task))) i j d in
      if decide (status task = "dropped") then updateTaskStatuses d' else d'
  end.

Definition statusIconClick (yaml_dump : Document → string) (v : View)
    (i j : nat) : View * list Effect :=
  let d := cycleStatus (yamlData v) i j in
  (set_yamlData d v, save v (yaml_dump d)).

(** The task the add button creates: [hours] is what [parseFloat] made of
    the text of the modal, [now] is [Date.now()]. *)
Definition newTask (title : string) (hours : float) (now : N) : Task :=
  {| task_id := "task-" +:+ pretty now;
     task_title := title;
     estimated_hours := Js.or hours 1;
     status := "pool" |}.


(** The calendar's object for a panel item dropped on the calendar:
    [eventData] gives the id, the title, the color and the extended
    properties; the calendar gives the start and the end. *)
Definition droppedEvent (taskId title : string) (now : N) (start : Z)
    (end_ : option Z) : CalEvent :=
  {| cal_id := taskId +:+ "_" +:+ pretty now;
     cal_title := title;
     cal_start := start;
     cal_end := end_;
     cal_backgroundColor := defaultColor;
     cal_type := Some "task";
     cal_taskId := Some taskId |}.

(** The [filter] of the panel:
    [e.type === 'task' && (e.taskId === task.id || e.id === task.id)]. *)
Definition panelCounts (id : string) (ev : Event) : Prop :=
  ev_type ev = "task" ∧ (ev_taskId ev = Some id ∨ ev_id ev = id).

#[global] Instance panelCounts_dec id ev : Decision (panelCounts id ev).
Proof. unfold panelCounts. apply _. Defined.

(** [task.status === 'scheduled' || task.status === 'partial'] *)
Definition panelShowsHours (task : Task) : bool :=
  bool_decide (status task = "scheduled") || bool_decide (status task = "partial").

(** The total the panel shows for a task: nothing is added up unless the
    status is [scheduled] or [partial]; then the events of the [filter] are
    gone through, and one with both a [start] and an [end] adds its hours. *)
Definition totalScheduledHours (evs : option (list Event)) (task : Task)
  : float :=
  if panelShowsHours task then
    foldl (λ total e,
             if Js.date_truthy (ev_start e) && Js.date_truthy (ev_end e)
             then (total + eventHours e)%float else total)
          0%float
          (filter (panelCounts (task_id task)) (default [] evs))
  else 0%float.

(** ** Loading and serializing the view *)

(** The object [setViewData] hands to [calendar.addEvent]. *)
Record CalInput : Type := mkCalInput {
  in_id : string;
  in_title : string;
  in_start : Js.date;
  in_end : Js.date;
  in_backgroundColor : string;
  in_borderColor : string;
  in_type : string;
  in_taskId : string
}.

Definition loadedColor : string := "#3b82f6".

(** [ev.color || '#3b82f6'] *)
Definition colorOr (ev : Event) : string :=
  match ev_color ev with
  | Some c => if Js.str_truthy c then c else loadedColor
  | None => loadedColor
  end.

Definition calendarInput (ev : Event) : CalInput :=
  {| in_id := ev_id ev;
     in_title := ev_title ev;
     in_start := ev_start ev;
     in_end := ev_end ev;
     in_backgroundColor := colorOr ev;
     in_borderColor := colorOr ev;
     in_type := ev_type ev;
     in_taskId := linkedTaskId ev |}.

(** The calendar's object for a loaded event after the user moved or resized
    it: the calendar keeps the id, the title, the color and the extended
    properties, and gives the new start and end. *)
Definition movedEvent (input : CalInput) (start : Z) (end_ : option Z)
    : CalEvent :=
  {| cal_id := in_id input;
     cal_title := in_title input;
     cal_start := start;
     cal_end := end_;
     cal_backgroundColor := in_backgroundColor input;
     cal_type := Some (in_type input);
     cal_taskId := Some (in_taskId input) |}.

(** The view together with the event collection of the calendar. *)
Record Screen : Type := mkScreen {
  scr_view : View;
  scr_calendar : list CalInput
}.

(** [{ insight: "", goals: [], events: [] }] *)
Definition emptyDocument : Document := mkDocument "" (Some []) (Some []).

Section ViewData.

(** [yaml.load]: [None] where it throws, [Some None] where it returns a
    falsy value (an empty text), [Some (Some d)] for a document. *)
Variable yaml_load : string → option (option Document).
Variable yaml_dump : Document → string.

Definition getViewData (v : View) : string :=
  if isSourceMode v then sourceText v else yaml_dump (yamlData v).

Definition setViewData (s : Screen) (data : string) : Screen :=
  let v := scr_view s in
  if isSourceMode v then
    {| scr_view :=
         {| file := file v; yamlData := yamlData v;
            isSourceMode := isSourceMode v; sourceText := data;
            shown := shown v |};
       scr_calendar := scr_calendar s |}
  else
    match yaml_load data with
    | None => s
    | Some loaded =>
        let d := default emptyDocument loaded in
        {| scr_view := set_yamlData d v;
           scr_calendar := calendarInput <$> default [] (events d) |}
    end.

(** [clear] *)
Definition clear (s : Screen) : Screen :=
  {| scr_view := set_yamlData emptyDocument (scr_view s); scr_calendar := [] |}.

End ViewData.

(** ** The document with its statuses set aside *)

(** Every task's [status] blanked, everything else as it is. *)
Definition eraseTaskStatuses (g : Goal) : Goal :=
  set_items ((λ its : list Task, set_status "" <$> its) <$> items g) g.

Definition eraseStatuses (d : Document) : Document :=
  set_goals ((λ gs : list Goal, eraseTaskStatuses <$> gs) <$> goals d) d.

(** ** More sample documents *)

(** A document with two blocks of one task, and the calendar's object for
    the second block, as [setViewData] builds it, moved from 10:00 to 8:00,
    before the first block. *)
Definition two_blocks_plan : Document :=
  plan [mkTask "t1" "report" 2 "scheduled"]
       [block "e1" "t1" (clock 9 0) (clock 10 0);
        block "e2" "t1" (clock 10 0) (clock 11 0)].

Definition move_second_block : CalEvent :=
  movedEvent (calendarInput (block "e2" "t1" (clock 10 0) (clock 11 0)))
             (clockMs 8 0) (Some (clockMs 9 0)).

(** A document whose second event has a [start] that is not a date. *)
Definition unsorted_plan : Document :=
  plan [mkTask "t1" "report" 2 "scheduled"]
       [block "b" "t1" (clock 10 0) (clock 11 0);
        block "c" "t1" Js.DateInvalid (clock 12 0);
        block "a" "t1" (clock 9 0) (clock 10 0)].

(** An event of the user's own, neither a block of a task nor a fixed event,
    stored without a [taskId] and without a color; and the calendar's object
    for it, as [setViewData] builds it, moved from 12:00 to 13:00. *)
Definition lunch : Event :=
  mkEvent "lunch" None "personal" "lunch" (clock 12 0) (clock 13 0) None [].

Definition lunch_plan : Document :=
  plan [mkTask "t1" "report" 2 "pool"] [lunch].

Definition drag_lunch : CalEvent :=
  movedEvent (calendarInput lunch) (clockMs 13 0) (Some (clockMs 14 0)).

(** * Theorems *)

(** ** Status reconciler *)

Lemma or0_idem x : Js.or (Js.or x 0) 0 = Js.or x 0.
Proof.
  unfold Js.or. destruct (Js.falsy x) eqn:E; [reflexivity | by rewrite E].
Qed.

Lemma getHours_or0 m id : Js.or (getHours m id) 0 = getHours m id.
Proof.
  unfold getHours. destruct (m !! id); [apply or0_idem | reflexivity].
Qed.

Lemma foldl_or0_start (hs : list Event) a :
  Js.or (foldl (λ acc ev, Js.or acc 0 + eventHours ev)%float (Js.or a 0) hs) 0
  = Js.or (foldl (λ acc ev, Js.or acc 0 + eventHours ev)%float a hs) 0.
Proof.
  destruct hs as [|h hs]; simpl; [apply or0_idem | by rewrite or0_idem].
Qed.

Lemma getHours_addEventHours m ev id :
  getHours (addEventHours m ev) id =
  if decide (linkedTo id ev ∧ hasDates ev)
  then Js.or (getHours m id + eventHours ev)%float 0
  else getHours m id.
Proof.
  unfold addEventHours.
  destruct (decide (linkedTo id ev ∧ hasDates ev)) as [[[Ht Hid] [Hs He]]|Hn].
  - rewrite decide_True by done. rewrite Hs, He. simpl. subst id.
    unfold getHours at 1. by rewrite lookup_insert_eq.
  - destruct (decide (ev_type ev = "task")) as [Ht|Ht]; [|reflexivity].
    destruct (Js.date_truthy (ev_start ev)) eqn:Hs,
             (Js.date_truthy (ev_end ev)) eqn:He; simpl; try reflexivity.
    unfold getHours. rewrite lookup_insert_ne; [reflexivity|].
    intros Heq. apply Hn. by repeat split.
Qed.

(** The map built by the first loop holds, for each task id, the running
    total over the events linked to it. *)
Lemma getHours_foldl evs : ∀ m id,
  getHours (foldl addEventHours m evs) id =
  Js.or (foldl (λ acc ev, Js.or acc 0 + eventHours ev)%float (getHours m id)
           (filter (λ ev, linkedTo id ev ∧ hasDates ev) evs)) 0.
Proof.
  induction evs as [|ev evs IH]; intros m id; simpl.
  - by rewrite getHours_or0.
  - rewrite IH, getHours_addEventHours, filter_cons.
    case_decide; [|reflexivity].
    simpl. by rewrite foldl_or0_start, getHours_or0.
Qed.

Lemma getHours_collect evs id :
  getHours (collectTaskHours evs) id = Js.or (scheduledHours (default [] evs) id) 0.
Proof.
  destruct evs as [l|]; simpl; [|reflexivity].
  by rewrite getHours_foldl.
Qed.

Lemma deriveStatus_or0 total estimated :
  deriveStatus (Js.or total 0) estimated =
  if Js.falsy total then "pool"
  else if (total <? estimated)%float then "partial" else "scheduled".
Proof.
  unfold deriveStatus, Js.or. destruct (Js.falsy total) eqn:E; [reflexivity|].
  unfold Js.falsy in E. apply orb_false_elim in E as [_ E].
  unfold PrimFloat.is_zero in E. change zero with 0%float in E. by rewrite E.
Qed.

Lemma task_at_updateTaskStatuses d i j :
  task_at (updateTaskStatuses d) i j =
  updateTask (collectTaskHours (events d)) <$> task_at d i j.
Proof.
  destruct d as [ins [gs|] evs]; unfold task_at, updateTaskStatuses; simpl;
    [|reflexivity].
  rewrite list_lookup_fmap. destruct (gs !! i) as [g|]; simpl; [|reflexivity].
  destruct (items g) as [its|]; simpl; [|reflexivity].
  by rewrite list_lookup_fmap.
Qed.

Lemma events_updateTaskStatuses d : events (updateTaskStatuses d) = events d.
Proof. by destruct d as [ins [gs|] evs]. Qed.

Lemma isManual_false s :
  s ≠ "completed" → s ≠ "dropped" → isManual s = false.
Proof.
  intros Hc Hd. unfold isManual.
  by rewrite !bool_decide_eq_false_2.
Qed.

(** The scenario of the specification: a two-hour task with no block, one
    one-hour block, two of them, and the first one deleted again. *)
Example scenario_two_hour_task :
  let t1 := mkTask "t1" "report" 2 "pool" in
  let e1 := block "e1" "t1" (clock 9 0) (clock 10 0) in
  let e2 := block "e2" "t1" (clock 11 0) (clock 12 0) in
  status <$> task_at (updateTaskStatuses (plan [t1] [])) 0 0 = Some "pool" ∧
  status <$> task_at (updateTaskStatuses (plan [t1] [e1])) 0 0 = Some "partial" ∧
  status <$> task_at (updateTaskStatuses (plan [t1] [e1; e2])) 0 0 = Some "scheduled" ∧
  status <$> task_at (updateTaskStatuses (plan [t1] [e2])) 0 0 = Some "partial".
Proof. vm_compute. done. Qed.


(** What the second loop leaves at a position that holds a task open to
    automatic derivation. *)
Lemma task_at_reconciled d i j t :
  task_at d i j = Some t →
  status t ≠ "completed" → status t ≠ "dropped" →
  task_at (updateTaskStatuses d) i j =
  Some (set_status
          (deriveStatus
             (Js.or (scheduledHours (default [] (events d)) (task_id t)) 0)
             (Js.or (estimated_hours t) 1)) t).
Proof.
  intros Ht Hc Hd.
  rewrite task_at_updateTaskStatuses, Ht. simpl. f_equal.
  unfold updateTask. rewrite isManual_false by done.
  by rewrite getHours_collect.
Qed.



(** C6: a task whose status is [completed] or [dropped] is left as it is by
    the reconciler, whatever the events are. *)
Theorem reconciler_keeps_manual_status d i j t :
  task_at d i j = Some t →
  status t = "completed" ∨ status t = "dropped" →
  task_at (updateTaskStatuses d) i j = Some t.
Proof.
  intros Ht Hs.
  rewrite task_at_updateTaskStatuses, Ht. simpl. f_equal.
  unfold updateTask, isManual.
  by destruct Hs as [-> | ->].
Qed.

Lemma reconciler_keeps_manual_status_witness :
  task_at (updateTaskStatuses
             (plan [mkTask "t1" "report" 2 "completed"]
                   [block "e1" "t1" (clock 9 0) (clock 10 0)])) 0 0
  = Some (mkTask "t1" "report" 2 "completed").
Proof.
  exact (reconciler_keeps_manual_status
           (plan [mkTask "t1" "report" 2 "completed"]
                 [block "e1" "t1" (clock 9 0) (clock 10 0)])
           0%nat 0%nat (mkTask "t1" "report" 2 "completed")
           eq_refl (or_introl eq_refl)).
Defined.

Lemma SFcompare_refl x : x ≠ S754_nan → SFcompare x x = Some Eq.
Proof.
  destruct x as [s|s| |s m e]; intros H; try congruence; simpl.
  - reflexivity.
  - by destruct s.
  - destruct s;
      by rewrite Z.compare_refl, ?Pos.compare_cont_refl, ?Pos.compare_refl.
Qed.

(** A number below another one is not [NaN]. *)
Lemma ltb_true_not_nan x y :
  (x <? y)%float = true → PrimFloat.is_nan x = false.
Proof.
  intros H. unfold PrimFloat.is_nan.
  rewrite FloatAxioms.eqb_spec. rewrite FloatAxioms.ltb_spec in H.
  unfold SFltb in H. unfold SFeqb.
  destruct (Prim2SF x) eqn:E; try (simpl in H; discriminate H);
    by rewrite SFcompare_refl.
Qed.

Lemma falsy_false_of_ltb x y :
  (x =? 0)%float = false → (x <? y)%float = true → Js.falsy x = false.
Proof.
  intros Hz Hlt. unfold Js.falsy.
  rewrite (ltb_true_not_nan x y Hlt). exact Hz.
Qed.

(** C10: a task whose [estimated_hours] parses to [0] or [NaN] is reconciled
    against an estimate of one hour; with a scheduled total that is not zero
    and below one hour it becomes [partial]. *)
Theorem unparseable_estimate_counts_as_one_hour d i j t :
  task_at d i j = Some t →
  status t ≠ "completed" → status t ≠ "dropped" →
  Js.falsy (estimated_hours t) = true →
  let total := scheduledHours (default [] (events d)) (task_id t) in
  ∃ t', task_at (updateTaskStatuses d) i j = Some t' ∧
        status t' = (if Js.falsy total then "pool"
                     else if (total <? 1)%float then "partial"
                     else "scheduled") ∧
        ((total =? 0)%float = false → (total <? 1)%float = true →
         status t' = "partial").
Proof.
  intros Ht Hc Hd He total.
  eexists. split; [exact (task_at_reconciled d i j t Ht Hc Hd)|]. simpl.
  rewrite deriveStatus_or0. fold total.
  unfold Js.or. rewrite He.
  split; [reflexivity|].
  intros Hz Hlt. by rewrite (falsy_false_of_ltb _ _ Hz Hlt), Hlt.
Qed.

Lemma unparseable_estimate_counts_as_one_hour_witness :
  ∃ t', task_at (updateTaskStatuses zero_estimate_plan) 0 0 = Some t' ∧
        status t' = "partial" ∧
        ((0.5 =? 0)%float = false → (0.5 <? 1)%float = true →
         status t' = "partial").
Proof.
  exact (unparseable_estimate_counts_as_one_hour zero_estimate_plan
           0%nat 0%nat (mkTask "t1" "inbox" 0 "pool")
           eq_refl ltac:(discriminate) ltac:(discriminate) eq_refl).
Defined.

(** ** Sorting by [start] *)

Lemma compareStart_times a b x y :
  Js.time_value (ev_start a) = Some x →
  Js.time_value (ev_start b) = Some y →
  compareStart a b = Z.compare x y.
Proof. intros Ha Hb. unfold compareStart. by rewrite Ha, Hb. Qed.

Lemma insertByStart_perm x l : insertByStart x l ≡ₚ x :: l.
Proof.
  induction l as [|y l IH]; simpl; [done|].
  destruct (compareStart x y); try done.
  rewrite IH. apply Permutation_swap.
Qed.

Lemma sortByStart_perm l : sortByStart l ≡ₚ l.
Proof.
  induction l as [|x l IH]; simpl; [done|].
  unfold sortByStart in *. simpl. by rewrite insertByStart_perm, IH.
Qed.

Lemma sortByStart_Forall (P : Event → Prop) l :
  Forall P l → Forall P (sortByStart l).
Proof. intros H. by rewrite sortByStart_perm. Qed.

Lemma startsNoLater_trans a b c :
  startsNoLater a b → startsNoLater b c → startsNoLater a c.
Proof.
  intros (x & y & Hx & Hy & Hxy) (y' & z & Hy' & Hz & Hyz).
  exists x, z. repeat split; try done.
  rewrite Hy in Hy'. injection Hy' as <-. lia.
Qed.

Lemma insertByStart_sorted x l :
  hasStart x → Forall hasStart l →
  sortedByStart l → sortedByStart (insertByStart x l).
Proof.
  intros [kx Hx] Hl Hs. unfold sortedByStart in *.
  induction Hs as [|y l Hs IH Hy]; simpl.
  - repeat constructor.
  - apply Forall_cons in Hl as [[ky Hky] Hl].
    rewrite (compareStart_times x y kx ky Hx Hky).
    destruct (Z.compare_spec kx ky) as [Heq|Hlt|Hgt].
    + constructor; [by constructor|].
      assert (startsNoLater x y) as Hxy by (exists kx, ky; repeat split; [done..|lia]).
      constructor; [done|].
      eapply Forall_impl; [exact Hy|]. intros z Hz.
      by eapply startsNoLater_trans.
    + constructor; [by constructor|].
      assert (startsNoLater x y) as Hxy by (exists kx, ky; repeat split; [done..|lia]).
      constructor; [done|].
      eapply Forall_impl; [exact Hy|]. intros z Hz.
      by eapply startsNoLater_trans.
    + constructor; [by apply IH|].
      rewrite insertByStart_perm. constructor; [|done].
      exists ky, kx. repeat split; [done..|lia].
Qed.

Lemma sortByStart_sorted l :
  Forall hasStart l → sortedByStart (sortByStart l).
Proof.
  induction 1 as [|x l Hx Hl IH]; [constructor|].
  change (sortByStart (x :: l)) with (insertByStart x (sortByStart l)).
  apply insertByStart_sorted; [done| by apply sortByStart_Forall |done].
Qed.

(** Stability: among the events that start at the same time, sorting keeps
    the order they had. *)
Lemma filter_startsAt_insertByStart k x l :
  hasStart x → Forall hasStart l →
  filter (startsAt k) (insertByStart x l) = filter (startsAt k) (x :: l).
Proof.
  intros [kx Hx] Hl.
  induction Hl as [|y l [ky Hy] Hl IH]; simpl; [done|].
  rewrite (compareStart_times x y kx ky Hx Hy).
  destruct (Z.compare_spec kx ky) as [Heq|Hlt|Hgt]; try done.
  rewrite !filter_cons, IH, !filter_cons.
  destruct (decide (startsAt k y)) as [Hky|Hky]; [|done].
  assert (¬ startsAt k x) as Hkx.
  { unfold startsAt in *. intros Hkx. rewrite Hx in Hkx. rewrite Hy in Hky.
    injection Hkx as <-. injection Hky as <-. lia. }
  by destruct (decide (startsAt k x)).
Qed.

Lemma filter_startsAt_sortByStart k l :
  Forall hasStart l →
  filter (startsAt k) (sortByStart l) = filter (startsAt k) l.
Proof.
  induction 1 as [|x l Hx Hl IH]; [done|].
  change (sortByStart (x :: l)) with (insertByStart x (sortByStart l)).
  rewrite filter_startsAt_insertByStart;
    [|done|by apply sortByStart_Forall].
  by rewrite !filter_cons, IH.
Qed.

(** Two sorted lists holding, for every time, the same events in the same
    order are the same list. *)
Lemma sortedByStart_unique l1 : ∀ l2,
  Forall hasStart l1 → Forall hasStart l2 →
  sortedByStart l1 → sortedByStart l2 →
  (∀ k, filter (startsAt k) l1 = filter (startsAt k) l2) →
  l1 = l2.
Proof.
  unfold sortedByStart.
  induction l1 as [|x l1 IH]; intros l2 H1 H2 S1 S2 Hf.
  - destruct l2 as [|y l2]; [done|].
    apply Forall_cons in H2 as [[ky Hy] _].
    specialize (Hf ky). rewrite filter_cons, decide_True in Hf by done.
    discriminate Hf.
  - apply Forall_cons in H1 as [[kx Hx] H1].
    destruct l2 as [|y l2].
    { specialize (Hf kx). rewrite filter_cons, decide_True in Hf by done.
      discriminate Hf. }
    apply Forall_cons in H2 as [[ky Hy] H2].
    apply StronglySorted_inv in S1 as [S1 Hx1].
    apply StronglySorted_inv in S2 as [S2 Hy2].
    assert (ky ≤ kx) as Hle1.
    { pose proof (Hf kx) as Hk.
      rewrite (filter_cons _ x), decide_True in Hk by done.
      assert (x ∈ filter (startsAt kx) (y :: l2)) as Hin
        by (rewrite <- Hk; apply list_elem_of_here).
      apply list_elem_of_filter in Hin as [_ Hin].
      apply elem_of_cons in Hin as [->|Hin].
      - rewrite Hx in Hy. injection Hy as <-. lia.
      - rewrite Forall_forall in Hy2.
        destruct (Hy2 x Hin) as (a & b & Ha & Hb & Hab).
        rewrite Hy in Ha. rewrite Hx in Hb.
        injection Ha as <-. injection Hb as <-. lia. }
    assert (kx ≤ ky) as Hle2.
    { pose proof (Hf ky) as Hk.
      rewrite (filter_cons _ y), decide_True in Hk by done.
      assert (y ∈ filter (startsAt ky) (x :: l1)) as Hin
        by (rewrite Hk; apply list_elem_of_here).
      apply list_elem_of_filter in Hin as [_ Hin].
      apply elem_of_cons in Hin as [->|Hin].
      - rewrite Hx in Hy. injection Hy as <-. lia.
      - rewrite Forall_forall in Hx1.
        destruct (Hx1 y Hin) as (a & b & Ha & Hb & Hab).
        rewrite Hx in Ha. rewrite Hy in Hb.
        injection Ha as <-. injection Hb as <-. lia. }
    assert (kx = ky) as <- by lia.
    assert (x = y) as <-.
    { specialize (Hf kx). rewrite !filter_cons, !decide_True in Hf by done.
      by injection Hf. }
    f_equal. apply IH; try done.
    intros k. specialize (Hf k). rewrite !filter_cons in Hf.
    destruct (decide (startsAt k x)); [by injection Hf | done].
Qed.

(** ** External sync *)

(** On an array of records the sync button leaves [mergeExternal] of the
    document in the view. *)
Lemma syncClick_merges yaml_dump v batch :
  yamlData (syncClick yaml_dump v (ExecStdout (JsonArray batch))).1
  = mergeExternal (yamlData v) batch.
Proof. unfold syncClick. simpl. reflexivity. Qed.

(** C2, counterexample: the sync does not run the reconciler. On a document
    whose task says [pool] although an hour of its two is scheduled, the
    merge of the specification ends with [partial]; the code leaves [pool]. *)
Lemma mergeExternal_no_reconcile_counterexample :
  mergeExternal unreconciled_plan [meeting "o1" (clock 13 0) (clock 14 0)]
  ≠ mergeExternal_claimed unreconciled_plan
      [meeting "o1" (clock 13 0) (clock 14 0)].
Proof.
  intros H.
  apply (f_equal (λ d, status <$> task_at d 0 0)) in H.
  vm_compute in H. discriminate H.
Qed.

(** C2, amended: the sync removes every existing event of type [outlook],
    appends the incoming entries as they are, and sorts the events by
    [start] (the result is a rearrangement of the kept events followed by
    the incoming ones, non-decreasing by [start] when every one of them has
    a time as [start]); it does not run the reconciler: goals, tasks and
    their statuses are left as they were. *)
Theorem mergeExternal_replaces_outlook d batch :
  ∃ evs',
    events (mergeExternal d batch) = Some evs' ∧
    evs' ≡ₚ filter notOutlook (default [] (events d)) ++ batch ∧
    (Forall hasStart (filter notOutlook (default [] (events d)) ++ batch) →
     sortedByStart evs') ∧
    goals (mergeExternal d batch) = goals d ∧
    insight (mergeExternal d batch) = insight d.
Proof.
  eexists. split; [reflexivity|].
  split; [apply sortByStart_perm|].
  split; [apply sortByStart_sorted|]. done.
Qed.

(** C3, counterexample: the code appends the entries as they come. An entry
    that is not of type [outlook] survives the filter of the next run and is
    appended again. *)
Lemma mergeExternal_twice_counterexample :
  mergeExternal
    (mergeExternal unreconciled_plan [block "x1" "t1" (clock 13 0) (clock 14 0)])
    [block "x1" "t1" (clock 13 0) (clock 14 0)]
  ≠ mergeExternal unreconciled_plan [block "x1" "t1" (clock 13 0) (clock 14 0)].
Proof.
  intros H.
  apply (f_equal (λ d, length (default [] (events d)))) in H.
  vm_compute in H. discriminate H.
Qed.

Lemma filter_notOutlook_outlook batch :
  Forall (λ ev, ev_type ev = "outlook") batch → filter notOutlook batch = [].
Proof.
  induction 1 as [|ev batch Hev _ IH]; [done|].
  rewrite filter_cons, decide_False; [done|].
  unfold notOutlook. tauto.
Qed.

Lemma filter_comm {A} (P Q : A → Prop)
    `{∀ x, Decision (P x)} `{∀ x, Decision (Q x)} (l : list A) :
  filter P (filter Q l) = filter Q (filter P l).
Proof.
  induction l as [|x l IH]; [done|].
  rewrite !filter_cons.
  destruct (decide (Q x)), (decide (P x));
    rewrite ?filter_cons, ?decide_True, ?decide_False by done; by rewrite ?IH.
Qed.

Lemma filter_idem {A} (P : A → Prop) `{∀ x, Decision (P x)} (l : list A) :
  filter P (filter P l) = filter P l.
Proof.
  induction l as [|x l IH]; [done|].
  rewrite filter_cons. destruct (decide (P x)); [|done].
  by rewrite filter_cons, decide_True, IH.
Qed.

Lemma Forall_filter_keep {A} (P : A → Prop) (Q : A → Prop)
    `{∀ x, Decision (Q x)} (l : list A) :
  Forall P l → Forall P (filter Q l).
Proof.
  rewrite !Forall_forall. intros Hl x Hx.
  apply list_elem_of_filter in Hx as [_ Hx]. by apply Hl.
Qed.

(** Sorting the kept events together with the batch, filtering the batch out
    again and merging it back gives the same list. *)
Lemma resync_events kept batch :
  filter notOutlook kept = kept →
  Forall (λ ev, ev_type ev = "outlook") batch →
  Forall hasStart kept → Forall hasStart batch →
  sortByStart (filter notOutlook (sortByStart (kept ++ batch)) ++ batch)
  = sortByStart (kept ++ batch).
Proof.
  intros Hkept Hout Hk Hb.
  assert (Forall hasStart (kept ++ batch)) as Hkb by by apply Forall_app.
  assert (Forall hasStart
            (filter notOutlook (sortByStart (kept ++ batch)) ++ batch)) as Hfb.
  { apply Forall_app. split; [|done].
    by apply Forall_filter_keep, sortByStart_Forall. }
  apply sortedByStart_unique.
  - by apply sortByStart_Forall.
  - by apply sortByStart_Forall.
  - by apply sortByStart_sorted.
  - by apply sortByStart_sorted.
  - intros k.
    rewrite !filter_startsAt_sortByStart by done.
    rewrite filter_app, filter_comm.
    rewrite filter_startsAt_sortByStart by done.
    rewrite filter_comm, filter_app, Hkept.
    rewrite (filter_notOutlook_outlook batch Hout).
    by rewrite app_nil_r, filter_app.
Qed.

(** C3, amended: the sync is idempotent for a batch whose entries all carry
    the type [outlook] (the code does not tag them), when the events it keeps
    and the entries of the batch all have a time as [start]: merging the same
    batch a second time gives the same document, events in the same order
    and statuses unchanged. *)
Theorem mergeExternal_idempotent d batch :
  Forall (λ ev, ev_type ev = "outlook") batch →
  Forall hasStart (filter notOutlook (default [] (events d))) →
  Forall hasStart batch →
  mergeExternal (mergeExternal d batch) batch = mergeExternal d batch.
Proof.
  intros Hout Hk Hb.
  unfold mergeExternal, set_events. simpl. do 2 f_equal.
  apply resync_events; try done.
  apply filter_idem.
Qed.

Lemma mergeExternal_idempotent_witness :
  mergeExternal
    (mergeExternal unreconciled_plan [meeting "o1" (clock 8 0) (clock 9 0)])
    [meeting "o1" (clock 8 0) (clock 9 0)]
  = mergeExternal unreconciled_plan [meeting "o1" (clock 8 0) (clock 9 0)].
Proof.
  apply (mergeExternal_idempotent unreconciled_plan
           [meeting "o1" (clock 8 0) (clock 9 0)]).
  - repeat constructor.
  - vm_compute. repeat constructor; by eexists.
  - repeat constructor; by eexists.
Defined.

(** ** Calendar changes *)

Lemma findIndex_Some id l : ∀ i,
  findIndex id l = Some i →
  ∃ old, l !! i = Some old ∧ ev_id old = id.
Proof.
  induction l as [|e l IH]; intros i H; simpl in H; [discriminate H|].
  destruct (decide (ev_id e = id)) as [He|He].
  - injection H as <-. by exists e.
  - destruct (findIndex id l) as [k|]; [|discriminate H].
    injection H as <-. by apply IH.
Qed.

Lemma findIndex_None id l :
  findIndex id l = None → Forall (λ e, ev_id e ≠ id) l.
Proof.
  induction l as [|e l IH]; intros H; simpl in H; [constructor|].
  destruct (decide (ev_id e = id)) as [He|He]; [discriminate H|].
  destruct (findIndex id l); [discriminate H|].
  constructor; [done | by apply IH].
Qed.

Lemma hasStart_newEventData event : hasStart (newEventData event).
Proof. by eexists. Qed.

Lemma putEvent_hasStart evs new :
  Forall hasStart evs → hasStart new → Forall hasStart (putEvent evs new).
Proof.
  intros Hevs Hnew. unfold putEvent.
  destruct (findIndex (ev_id new) evs) as [i|].
  - destruct (evs !! i) as [old|]; [|done].
    apply Forall_insert; [done|].
    destruct Hnew as [k Hk]. by exists k.
  - apply Forall_app. split; [done | by constructor].
Qed.

Lemma events_applyCalendarChange d event evs :
  events d = Some evs →
  ∃ d', applyCalendarChange d event = Some d' ∧
        events d' = Some (sortByStart (putEvent evs (newEventData event))).
Proof.
  intros He. unfold applyCalendarChange. rewrite He. simpl.
  eexists. split; [reflexivity|].
  by rewrite events_updateTaskStatuses.
Qed.

Lemma events_handleEventChange yaml_dump v event action evs :
  file v = true → events (yamlData v) = Some evs →
  events (yamlData (handleEventChange yaml_dump v event action).1)
  = Some (sortByStart (putEvent evs (newEventData event))).
Proof.
  intros Hf He. unfold handleEventChange. rewrite Hf. simpl.
  destruct (events_applyCalendarChange _ event _ He) as (d' & -> & Hd').
  done.
Qed.

(** A list sorted by [start] is in order in the sense of the
    specification. *)
Lemma sortedByStart_orderedByStart l : sortedByStart l → orderedByStart l.
Proof.
  induction 1 as [|e l _ IH Hall]; intros i j a b x y Hij Ha Hb Hx Hy.
  - by rewrite lookup_nil in Ha.
  - destruct j as [|j]; [lia|]. simpl in Hb.
    destruct i as [|i]; simpl in Ha.
    + injection Ha as <-.
      rewrite Forall_forall in Hall.
      destruct (Hall b (list_elem_of_lookup_2 _ _ _ Hb)) as (x' & y' & Hx' & Hy' & Hle).
      congruence.
    + apply (IH i j a b x y); [lia | done..].
Qed.

(** C8, counterexample: a sync with an empty batch on a document whose
    events are [b] at 10:00, [c] with a [start] that is not a date, and [a]
    at 9:00. Every comparison with [c] answers [NaN], which [sort] reads as
    "in order", and [a] is compared with [c] only: to V8, the engine of the
    application, the three events are one ascending run, and they are stored
    as they were, [b] at 10:00 before [a] at 9:00. *)
Lemma sync_leaves_unsorted_counterexample :
  ¬ orderedByStart (default [] (events (mergeExternal unsorted_plan []))).
Proof.
  intros H.
  specialize (H 0%nat 2%nat _ _ (clockMs 10 0) (clockMs 9 0)
                ltac:(lia) eq_refl eq_refl eq_refl eq_refl).
  vm_compute in H. by apply H.
Qed.

(** C8, amended: after a calendar change (an event received, moved or
    resized) on a view with a file and an events list, and after a sync, the
    events of the document are non-decreasing by [start], provided the
    events concerned all have a time as [start]: the stored events for the
    calendar change; the events the sync keeps (those not of type [outlook])
    and the entries of the batch for the sync. *)
Theorem events_sorted_after_change yaml_dump v event action evs d batch :
  file v = true → events (yamlData v) = Some evs → Forall hasStart evs →
  Forall hasStart (filter notOutlook (default [] (events d))) →
  Forall hasStart batch →
  (∃ evs', events (yamlData (handleEventChange yaml_dump v event action).1)
           = Some evs' ∧ sortedByStart evs') ∧
  (∃ evs', events (mergeExternal d batch) = Some evs' ∧ sortedByStart evs').
Proof.
  intros Hf He Hevs Hkept Hbatch. split.
  - eexists. split; [by apply events_handleEventChange|].
    apply sortByStart_sorted, putEvent_hasStart; [done|].
    apply hasStart_newEventData.
  - eexists. split; [reflexivity|].
    apply sortByStart_sorted, Forall_app. by split.
Qed.

Lemma events_sorted_after_change_witness :
  (∃ evs', events (yamlData (handleEventChange no_dump
                               (open_view two_blocks_plan)
                               move_second_block Update).1)
           = Some evs' ∧ sortedByStart evs') ∧
  (∃ evs', events (mergeExternal unreconciled_plan
                     [meeting "o1" (clock 8 0) (clock 9 0)]) = Some evs' ∧
           sortedByStart evs').
Proof.
  apply (events_sorted_after_change no_dump (open_view two_blocks_plan)
           move_second_block Update
           [block "e1" "t1" (clock 9 0) (clock 10 0);
            block "e2" "t1" (clock 10 0) (clock 11 0)]
           unreconciled_plan [meeting "o1" (clock 8 0) (clock 9 0)]).
  - reflexivity.
  - reflexivity.
  - repeat constructor; by eexists.
  - vm_compute. repeat constructor; by eexists.
  - repeat constructor; by eexists.
Defined.

(** [findIndex] answers the first position that holds the id. *)
Lemma findIndex_first id l i :
  findIndex id l = Some i →
  ∀ k e, (k < i)%nat → l !! k = Some e → ev_id e ≠ id.
Proof.
  revert i. induction l as [|x l IH]; intros i H; simpl in H; [discriminate H|].
  destruct (decide (ev_id x = id)) as [Hx|Hx].
  - injection H as <-. intros k e Hk. lia.
  - destruct (findIndex id l) as [n|]; [|discriminate H].
    injection H as <-.
    intros [|k] e Hk Hl; simpl in Hl.
    + by injection Hl as <-.
    + apply (IH n eq_refl k e); [lia | done].
Qed.

(** C7, counterexample: the stored event [lunch] has type [personal] and no
    [taskId]. The calendar's object for it, as [setViewData] builds it,
    carries the type [personal] and the [taskId] [lunch] (the event's id);
    moved by an hour, the event is stored again with type [task] and with
    [taskId] [lunch]: the spread overwrites both with those of the new
    record. *)
Lemma calendar_change_retags_counterexample :
  ¬ change_keeps_link lunch_plan drag_lunch.
Proof.
  intros H.
  destruct (H [lunch] 0%nat lunch eq_refl eq_refl eq_refl)
    as (d' & evs' & new & Hd & He & Hin & _ & _ & Hty).
  vm_compute in Hd. injection Hd as <-.
  vm_compute in He. injection He as <-.
  apply list_elem_of_singleton in Hin. subst new.
  vm_compute in Hty. discriminate Hty.
Qed.

(** C7, amended, for a calendar event whose id is not that of a stored
    event of type [outlook]. The events afterwards are a rearrangement
    (sorted by [start] when every stored event has a time as [start]) of the
    following list. When a stored event has the incoming id, the stored
    events with the first such event replaced: [title], [start], [end] and
    [color] come from the calendar event, and so does [taskId] (the calendar
    event's [taskId], or its id when it has none); the type is [task]; the
    [id] and every other property of the stored event are kept, and so is
    every other event. When no stored event has the id, the stored events
    followed by a new event with type [task], the same [taskId] rule, and
    the calendar event's background color, [#10b981] when it has none. *)
Theorem calendar_change_updates_or_appends yaml_dump v event action evs :
  file v = true → events (yamlData v) = Some evs →
  (∀ i old, findIndex (cal_id event) evs = Some i → evs !! i = Some old →
            ev_type old ≠ "outlook") →
  ∃ evs',
    events (yamlData (handleEventChange yaml_dump v event action).1) = Some evs' ∧
    (Forall hasStart evs → sortedByStart evs') ∧
    match findIndex (cal_id event) evs with
    | Some i =>
        ∃ old, evs !! i = Some old ∧ ev_id old = cal_id event ∧
          (∀ k e, (k < i)%nat → evs !! k = Some e → ev_id e ≠ cal_id event) ∧
          evs' ≡ₚ <[i := {| ev_id := ev_id old;
                            ev_taskId := Some (calTaskId event);
                            ev_type := "task";
                            ev_title := cal_title event;
                            ev_start := formatLocalISO (cal_start event);
                            ev_end := calEnd event;
                            ev_color := Some (calColor event);
                            ev_extra := ev_extra old |}]> evs
    | None =>
        Forall (λ e, ev_id e ≠ cal_id event) evs ∧
        evs' ≡ₚ evs ++ [{| ev_id := cal_id event;
                           ev_taskId := Some (calTaskId event);
                           ev_type := "task";
                           ev_title := cal_title event;
                           ev_start := formatLocalISO (cal_start event);
                           ev_end := calEnd event;
                           ev_color := Some (calColor event);
                           ev_extra := [] |}]
    end.
Proof.
  intros Hf He _. eexists. split; [by apply events_handleEventChange|].
  split.
  { intros Hst. apply sortByStart_sorted, putEvent_hasStart; [done|].
    apply hasStart_newEventData. }
  unfold putEvent. simpl.
  destruct (findIndex (cal_id event) evs) as [i|] eqn:Hi.
  - destruct (findIndex_Some _ _ _ Hi) as (old & Hold & Hid).
    exists old. rewrite Hold.
    split; [done|]. split; [done|]. split; [by apply findIndex_first|].
    rewrite sortByStart_perm. unfold spread. simpl. by rewrite Hid.
  - split; [by apply findIndex_None | apply sortByStart_perm].
Qed.

Lemma calendar_change_updates_or_appends_witness :
  ∃ evs',
    events (yamlData (handleEventChange no_dump (open_view two_blocks_plan)
                        move_second_block Update).1) = Some evs' ∧
    (Forall hasStart [block "e1" "t1" (clock 9 0) (clock 10 0);
                      block "e2" "t1" (clock 10 0) (clock 11 0)] →
     sortedByStart evs') ∧
    ∃ old,
      [block "e1" "t1" (clock 9 0) (clock 10 0);
       block "e2" "t1" (clock 10 0) (clock 11 0)] !! 1%nat = Some old ∧
      ev_id old = "e2" ∧
      (∀ k e, (k < 1)%nat →
              [block "e1" "t1" (clock 9 0) (clock 10 0);
               block "e2" "t1" (clock 10 0) (clock 11 0)] !! k = Some e →
              ev_id e ≠ "e2") ∧
      evs' ≡ₚ <[1%nat := {| ev_id := ev_id old;
                            ev_taskId := Some "t1";
                            ev_type := "task";
                            ev_title := "block";
                            ev_start := clock 8 0;
                            ev_end := clock 9 0;
                            ev_color := Some defaultColor;
                            ev_extra := ev_extra old |}]>
               [block "e1" "t1" (clock 9 0) (clock 10 0);
                block "e2" "t1" (clock 10 0) (clock 11 0)].
Proof.
  refine (calendar_change_updates_or_appends no_dump
            (open_view two_blocks_plan) move_second_block Update
            [block "e1" "t1" (clock 9 0) (clock 10 0);
             block "e2" "t1" (clock 10 0) (clock 11 0)] eq_refl eq_refl _).
  intros i old Hi Hold. vm_compute in Hi. injection Hi as <-.
  injection Hold as <-. discriminate.
Defined.

(** ** Fixed events *)

(** The click on a fixed event is turned down with a notice, whatever the
    answer to the confirmation would be. *)
Lemma eventClick_outlook yaml_dump v event confirmed :
  cal_type event = Some "outlook" →
  eventClick yaml_dump v event confirmed = (v, [Notify NoticeOutlookFixed]).
Proof. intros H. unfold eventClick. by rewrite decide_True. Qed.

Lemma eventClick_outlook_witness :
  eventClick no_dump (open_view fixed_plan) drag_meeting true
  = (open_view fixed_plan, [Notify NoticeOutlookFixed]).
Proof.
  exact (eventClick_outlook no_dump (open_view fixed_plan) drag_meeting true
           eq_refl).
Defined.

(** C4, the code at the failing input: [eventDrop] and [eventResize] go to
    [handleEventChange], which has no test on the type. Dragging or resizing
    the fixed event [o1] stores it with the new times and with type [task],
    writes the document, and shows no notice. *)
Theorem outlook_event_drop_is_applied yaml_dump :
  let v := open_view fixed_plan in
  let changed :=
    plan [mkTask "t1" "report" 2 "pool"]
         [mkEvent "o1" (Some "o1") "task" "meeting" (clock 13 0) (clock 14 0)
                  (Some "#3b82f6") []] in
  calendarCallback yaml_dump v EventDrop drag_meeting
    = (set_yamlData changed v, [VaultModify (yaml_dump changed)]) ∧
  calendarCallback yaml_dump v EventResize drag_meeting
    = (set_yamlData changed v, [VaultModify (yaml_dump changed)]) ∧
  changed ≠ fixed_plan.
Proof.
  intros v changed. split; [|split].
  - reflexivity.
  - reflexivity.
  - intros H. apply (f_equal events) in H. discriminate H.
Qed.

(** ** Failures of the sync *)

(** When the process fails, or its output is not JSON, the view is left as
    it was and a notice is shown. *)
Lemma syncClick_failure_unchanged yaml_dump v r :
  r = RequireFailed ∨ r = ExecError ∨ r = ExecStdout JsonSyntaxError →
  ∃ n, syncClick yaml_dump v r = (v, [Notify NoticeFetching; Notify n]).
Proof.
  intros [-> | [-> | ->]]; simpl; by eexists.
Qed.

Lemma syncClick_failure_unchanged_witness :
  ∃ n, syncClick no_dump (open_view fixed_plan) ExecError
       = (open_view fixed_plan, [Notify NoticeFetching; Notify n]).
Proof.
  exact (syncClick_failure_unchanged no_dump (open_view fixed_plan) ExecError
           (or_intror (or_introl eq_refl))).
Defined.

(** C9, the code at the failing input: when the output is JSON but not a
    sequence (an object, say), [JSON.parse] succeeds, the filter removes the
    fixed events from the document, and only then the spread throws. The
    notice is shown, and the document has lost its fixed event. *)
Theorem sync_failure_drops_outlook_events yaml_dump :
  syncClick yaml_dump (open_view fixed_plan) (ExecStdout JsonNotIterable)
  = (open_view (plan [mkTask "t1" "report" 2 "pool"] []),
     [Notify NoticeFetching; Notify NoticeParseFailed]) ∧
  plan [mkTask "t1" "report" 2 "pool"] [] ≠ fixed_plan.
Proof.
  split; [reflexivity|].
  intros H. apply (f_equal events) in H. discriminate H.
Qed.

(** ** Leaving source mode *)

(** C5: leaving source mode with a text that does not parse is turned down:
    the view stays in source mode with the source pane and the edited text,
    a notice is shown, and the document is the one it was. *)
Theorem failed_mode_switch_keeps_document yaml_load yaml_dump v :
  isSourceMode v = true →
  yaml_load (sourceText v) = None →
  toggleModeClick yaml_load yaml_dump v = (v, [Notify NoticeYamlSyntax]) ∧
  yamlData (toggleModeClick yaml_load yaml_dump v).1 = yamlData v ∧
  isSourceMode (toggleModeClick yaml_load yaml_dump v).1 = true.
Proof.
  intros Hm Hp. unfold toggleModeClick. rewrite Hm, Hp. simpl.
  repeat split. f_equal. destruct v; simpl in *. by subst.
Qed.

Lemma failed_mode_switch_keeps_document_witness :
  let v := mkView true fixed_plan true "goals: [" SourcePane in
  toggleModeClick toy_load no_dump v = (v, [Notify NoticeYamlSyntax]) ∧
  yamlData (toggleModeClick toy_load no_dump v).1 = yamlData v ∧
  isSourceMode (toggleModeClick toy_load no_dump v).1 = true.
Proof.
  exact (failed_mode_switch_keeps_document toy_load no_dump
           (mkView true fixed_plan true "goals: [" SourcePane) eq_refl eq_refl).
Defined.

(** ** Further properties of the reconciler and of the sync *)

Lemma isManual_deriveStatus total estimated :
  isManual (deriveStatus total estimated) = false.
Proof.
  unfold deriveStatus.
  by destruct (total =? 0)%float, (total <? estimated)%float.
Qed.

Lemma updateTask_idem taskHours task :
  updateTask taskHours (updateTask taskHours task) = updateTask taskHours task.
Proof.
  unfold updateTask at 2 3.
  destruct (isManual (status task)) eqn:Hm.
  - unfold updateTask. by rewrite Hm.
  - unfold updateTask. simpl. by rewrite isManual_deriveStatus.
Qed.

(** Reconciling a reconciled document changes nothing. *)
Theorem updateTaskStatuses_idempotent d :
  updateTaskStatuses (updateTaskStatuses d) = updateTaskStatuses d.
Proof.
  destruct d as [ins [gs|] evs]; [|reflexivity].
  unfold updateTaskStatuses, set_goals. simpl. do 2 f_equal.
  rewrite <- list_fmap_compose. apply list_fmap_ext. intros _ g _. simpl.
  unfold updateGoal, set_items. simpl. f_equal.
  destruct (items g) as [its|]; [|reflexivity]. simpl. f_equal.
  rewrite <- list_fmap_compose. apply list_fmap_ext. intros _ t _. simpl.
  apply updateTask_idem.
Qed.

(** The reconciler changes nothing but statuses: with every task's status
    blanked, the reconciled document is the document it was given. So the
    note and the events are kept, and so are the roles, the number of tasks
    of each role and, at every position, the task's id, title and
    estimate. *)
Theorem updateTaskStatuses_frame d :
  eraseStatuses (updateTaskStatuses d) = eraseStatuses d.
Proof.
  destruct d as [ins [gs|] evs]; [|reflexivity].
  unfold eraseStatuses, updateTaskStatuses, set_goals. simpl. do 2 f_equal.
  rewrite <- list_fmap_compose. apply list_fmap_ext. intros _ g _. simpl.
  unfold eraseTaskStatuses, updateGoal, set_items. simpl. f_equal.
  destruct (items g) as [its|]; [|reflexivity]. simpl. f_equal.
  rewrite <- list_fmap_compose. apply list_fmap_ext. intros _ t _. simpl.
  unfold updateTask. by destruct (isManual (status t)).
Qed.

(** The sync keeps the events that are not of type [outlook]: those of the
    result are those of the document (and of the batch, should it hold
    any), rearranged. *)
Theorem mergeExternal_keeps_other_events d batch :
  filter notOutlook (default [] (events (mergeExternal d batch)))
  ≡ₚ filter notOutlook (default [] (events d)) ++ filter notOutlook batch.
Proof.
  unfold mergeExternal. simpl.
  rewrite sortByStart_perm, filter_app. by rewrite filter_idem.
Qed.

(** Deleting a block removes every event with its id and reconciles. *)
Theorem eventClick_deletes yaml_dump v event evs :
  cal_type event ≠ Some "outlook" → events (yamlData v) = Some evs →
  let d := updateTaskStatuses
             (set_events (Some (filter (λ e, ev_id e ≠ cal_id event) evs))
                (yamlData v)) in
  yamlData (eventClick yaml_dump v event true).1 = d ∧
  events d = Some (filter (λ e, ev_id e ≠ cal_id event) evs) ∧
  Forall (λ e, ev_id e ≠ cal_id event) (default [] (events d)).
Proof.
  intros Hty He d. unfold eventClick.
  rewrite decide_False by done. rewrite He. simpl.
  split; [reflexivity|].
  subst d. rewrite events_updateTaskStatuses. simpl.
  split; [reflexivity|].
  apply Forall_forall. intros e Hin.
  by apply list_elem_of_filter in Hin as [Hne _].
Qed.

Lemma eventClick_deletes_witness :
  let d := updateTaskStatuses
             (set_events
                (Some (filter (λ e, ev_id e ≠ "e1")
                         [block "e1" "t1" (clock 9 0) (clock 10 0)]))
                unreconciled_plan) in
  yamlData (eventClick no_dump (open_view unreconciled_plan) drag_block true).1
    = d ∧
  events d = Some (filter (λ e, ev_id e ≠ "e1")
                     [block "e1" "t1" (clock 9 0) (clock 10 0)]) ∧
  Forall (λ e, ev_id e ≠ "e1") (default [] (events d)).
Proof.
  exact (eventClick_deletes no_dump (open_view unreconciled_plan) drag_block
           [block "e1" "t1" (clock 9 0) (clock 10 0)]
           ltac:(discriminate) eq_refl).
Defined.


(** The scenario of the specification: merging an empty batch into a
    document with two fixed events and one block leaves the block alone. *)
Example scenario_empty_batch :
  let e1 := block "e1" "t1" (clock 9 0) (clock 10 0) in
  let d := plan [mkTask "t1" "report" 2 "partial"]
             [meeting "o1" (clock 8 0) (clock 9 0); e1;
              meeting "o2" (clock 13 0) (clock 14 0)] in
  mergeExternal d [] = plan [mkTask "t1" "report" 2 "partial"] [e1].
Proof. intros e1 d. subst d e1. vm_compute. reflexivity. Qed.

(** ** More on the reconciler *)

(** After the reconciler, every status is one of the five the view knows:
    whatever else a task said before is overwritten. *)
Theorem reconciled_status_in_range d i j t :
  task_at (updateTaskStatuses d) i j = Some t →
  status t ∈ ["pool"; "partial"; "scheduled"; "completed"; "dropped"].
Proof.
  rewrite task_at_updateTaskStatuses.
  destruct (task_at d i j) as [t0|]; [|discriminate]. simpl.
  intros [= <-]. unfold updateTask.
  destruct (isManual (status t0)) eqn:Hm.
  - unfold isManual in Hm. apply orb_true_iff in Hm as [Hm|Hm];
      apply bool_decide_eq_true in Hm; rewrite Hm; set_solver.
  - simpl. unfold deriveStatus.
    destruct (_ =? _)%float; [set_solver|].
    destruct (_ <? _)%float; set_solver.
Qed.

Lemma reconciled_status_in_range_witness :
  status (mkTask "t1" "report" 2 "partial")
  ∈ ["pool"; "partial"; "scheduled"; "completed"; "dropped"].
Proof.
  exact (reconciled_status_in_range
           (plan [mkTask "t1" "report" 2 "someday"]
                 [block "e1" "t1" (clock 9 0) (clock 10 0)])
           0%nat 0%nat (mkTask "t1" "report" 2 "partial") eq_refl).
Defined.

Lemma addEventHours_other_type m ev :
  ev_type ev ≠ "task" → addEventHours m ev = m.
Proof. intros H. unfold addEventHours. by rewrite decide_False. Qed.

Lemma foldl_addEventHours_filter evs : ∀ m,
  foldl addEventHours m (filter (λ ev, ev_type ev = "task") evs)
  = foldl addEventHours m evs.
Proof.
  induction evs as [|ev evs IH]; intros m; [done|].
  rewrite filter_cons. destruct (decide (ev_type ev = "task")) as [Ht|Ht]; simpl.
  - apply IH.
  - by rewrite IH, addEventHours_other_type.
Qed.

(** Only the events of type [task] count: with every other event (the fixed
    ones among them) taken out of the document, the reconciler derives the
    same goals, tasks and statuses. *)
Theorem reconciler_ignores_other_types d evs :
  goals (updateTaskStatuses
           (set_events (Some (filter (λ ev, ev_type ev = "task") evs)) d))
  = goals (updateTaskStatuses (set_events (Some evs) d)).
Proof.
  destruct d as [ins [gs|] evs0]; [|reflexivity].
  unfold updateTaskStatuses, set_events, collectTaskHours. simpl.
  by rewrite foldl_addEventHours_filter.
Qed.

Lemma filter_nil_Forall {A} (P : A → Prop) `{∀ x, Decision (P x)} (l : list A) :
  Forall (λ x, ¬ P x) l → filter P l = [].
Proof.
  induction 1 as [|x l Hx _ IH]; [done|].
  by rewrite filter_cons, decide_False.
Qed.

(** A task that no event with a start and an end is linked to, and that is
    not completed or dropped, is set to [pool], whatever it said before. *)
Theorem unscheduled_task_is_pool d i j t :
  task_at d i j = Some t →
  status t ≠ "completed" → status t ≠ "dropped" →
  Forall (λ ev, ¬ (linkedTo (task_id t) ev ∧ hasDates ev))
         (default [] (events d)) →
  task_at (updateTaskStatuses d) i j = Some (set_status "pool" t).
Proof.
  intros Ht Hc Hd Hnone.
  rewrite (task_at_reconciled d i j t Ht Hc Hd).
  unfold scheduledHours. by rewrite filter_nil_Forall.
Qed.

Lemma unscheduled_task_is_pool_witness :
  task_at (updateTaskStatuses
             (plan [mkTask "t2" "slides" 3 "scheduled"]
                   [block "e1" "t1" (clock 9 0) (clock 10 0)])) 0 0
  = Some (mkTask "t2" "slides" 3 "pool").
Proof.
  apply (unscheduled_task_is_pool
           (plan [mkTask "t2" "slides" 3 "scheduled"]
                 [block "e1" "t1" (clock 9 0) (clock 10 0)])
           0%nat 0%nat (mkTask "t2" "slides" 3 "scheduled") eq_refl).
  - discriminate.
  - discriminate.
  - repeat constructor. intros [[_ H] _]. discriminate H.
Defined.

(** ** The status icon *)

Lemma set_status_status t : set_status (status t) t = t.
Proof. by destruct t. Qed.

Lemma task_at_Some d i j t :
  task_at d i j = Some t →
  ∃ gs g its, goals d = Some gs ∧ gs !! i = Some g ∧
              items g = Some its ∧ its !! j = Some t.
Proof.
  unfold task_at. intros H.
  destruct (goals d) as [gs|]; [|discriminate]. simpl in H.
  destruct (gs !! i) as [g|] eqn:Hg; [|discriminate]. simpl in H.
  destruct (items g) as [its|] eqn:Hits; [|discriminate]. simpl in H.
  by exists gs, g, its.
Qed.

Lemma task_at_alter_task f i j d :
  task_at (alter_task f i j d) i j = f <$> task_at d i j.
Proof.
  destruct d as [ins [gs|] evs]; unfold task_at, alter_task; simpl; [|done].
  rewrite list_lookup_alter_eq. destruct (gs !! i) as [g|]; simpl; [|done].
  destruct (items g) as [its|]; simpl; [|done].
  by rewrite list_lookup_alter_eq.
Qed.

Lemma alter_task_alter_task f g i j d :
  alter_task f i j (alter_task g i j d) = alter_task (f ∘ g) i j d.
Proof.
  destruct d as [ins [gs|] evs]; unfold alter_task, set_goals; simpl; [|done].
  do 2 f_equal. rewrite list_alter_alter_eq.
  apply list_alter_ext; [|done]. intros g0 _. unfold set_items. simpl. f_equal.
  destruct (items g0) as [its|]; simpl; [|done].
  by rewrite list_alter_alter_eq.
Qed.

Lemma alter_task_id f i j d :
  (∀ t, task_at d i j = Some t → f t = t) → alter_task f i j d = d.
Proof.
  intros Hf.
  destruct d as [ins [gs|] evs]; unfold alter_task, set_goals; simpl; [|done].
  do 2 f_equal. apply list_eq. intros k.
  destruct (decide (k = i)) as [->|Hk];
    [|by rewrite list_lookup_alter_ne].
  rewrite list_lookup_alter_eq.
  destruct (gs !! i) as [g|] eqn:Hg; simpl; [|done]. f_equal.
  destruct g as [r [its|]]; unfold set_items; simpl; [|done]. do 2 f_equal.
  apply list_eq. intros m.
  destruct (decide (m = j)) as [->|Hm];
    [|by rewrite list_lookup_alter_ne].
  rewrite list_lookup_alter_eq.
  destruct (its !! j) as [t|] eqn:Ht; simpl; [|done]. f_equal.
  apply Hf. unfold task_at. simpl. rewrite Hg. simpl. exact Ht.
Qed.

(** The reconciler run on a document in which the task at one position was
    assigned to, and that task assigned to again afterwards. *)
Lemma alter_reconcile_alter h f g i j d :
  (∀ t, task_at d i j = Some t →
        h (updateTask (collectTaskHours (events d)) (f t))
        = updateTask (collectTaskHours (events d)) (g t)) →
  alter_task h i j (updateTaskStatuses (alter_task f i j d))
  = updateTaskStatuses (alter_task g i j d).
Proof.
  intros Hh.
  destruct d as [ins [gs|] evs];
    unfold alter_task, updateTaskStatuses, set_goals; simpl; [|done].
  do 2 f_equal. apply list_eq. intros k.
  destruct (decide (k = i)) as [->|Hk].
  2:{ rewrite list_lookup_alter_ne, !list_lookup_fmap by done.
      by rewrite !list_lookup_alter_ne. }
  rewrite list_lookup_alter_eq, !list_lookup_fmap, !list_lookup_alter_eq.
  destruct (gs !! i) as [g0|] eqn:Hg; simpl; [|done]. f_equal.
  destruct g0 as [r [its|]]; unfold updateGoal, set_items; simpl; [|done].
  do 2 f_equal. apply list_eq. intros m.
  destruct (decide (m = j)) as [->|Hm].
  2:{ rewrite list_lookup_alter_ne, !list_lookup_fmap by done.
      by rewrite !list_lookup_alter_ne. }
  rewrite list_lookup_alter_eq, !list_lookup_fmap, !list_lookup_alter_eq.
  destruct (its !! j) as [t|] eqn:Ht; simpl; [|done]. f_equal.
  apply Hh. unfold task_at. simpl. rewrite Hg. simpl. exact Ht.
Qed.

Lemma reconcile_alter f i j d :
  (∀ t, task_at d i j = Some t →
        updateTask (collectTaskHours (events d)) (f t)
        = updateTask (collectTaskHours (events d)) t) →
  updateTaskStatuses (alter_task f i j d) = updateTaskStatuses d.
Proof.
  intros Hf.
  rewrite <- (alter_task_id id i j (updateTaskStatuses (alter_task f i j d)))
    by done.
  rewrite (alter_reconcile_alter id f id i j d) by (intros t Ht; by apply Hf).
  by rewrite alter_task_id.
Qed.

Lemma updateTask_manual th t :
  status t = "completed" ∨ status t = "dropped" → updateTask th t = t.
Proof. intros [H|H]; unfold updateTask, isManual; by rewrite H. Qed.

Lemma updateTask_set_status th s t :
  s ≠ "completed" → s ≠ "dropped" →
  updateTask th (set_status s t)
  = set_status (deriveStatus (getHours th (task_id t))
                  (Js.or (estimated_hours t) 1)) t.
Proof.
  intros Hc Hd. unfold updateTask. simpl. by rewrite isManual_false.
Qed.

Lemma updateTask_auto th t :
  status t ≠ "completed" → status t ≠ "dropped" →
  updateTask th t
  = set_status (deriveStatus (getHours th (task_id t))
                  (Js.or (estimated_hours t) 1)) t.
Proof.
  intros Hc Hd. unfold updateTask. by rewrite isManual_false.
Qed.

Lemma deriveStatus_auto a b :
  deriveStatus a b ≠ "completed" ∧ deriveStatus a b ≠ "dropped".
Proof.
  unfold deriveStatus.
  by destruct (a =? 0)%float, (a <? b)%float.
Qed.

Lemma cycleStatus_completed d i j t :
  task_at d i j = Some t → status t = "completed" →
  cycleStatus d i j = alter_task (set_status "dropped") i j d.
Proof.
  intros Ht Hs. unfold cycleStatus, nextStatus. rewrite Ht, Hs. reflexivity.
Qed.

Lemma cycleStatus_dropped d i j t :
  task_at d i j = Some t → status t = "dropped" →
  cycleStatus d i j = updateTaskStatuses (alter_task (set_status "pool") i j d).
Proof.
  intros Ht Hs. unfold cycleStatus, nextStatus. rewrite Ht, Hs. reflexivity.
Qed.

Lemma cycleStatus_auto d i j t :
  task_at d i j = Some t → status t ≠ "completed" → status t ≠ "dropped" →
  cycleStatus d i j = alter_task (set_status "completed") i j d.
Proof.
  intros Ht Hc Hd. unfold cycleStatus, nextStatus. rewrite Ht.
  by rewrite !decide_False.
Qed.

(** Three clicks on the icon of a task bring every status to what the
    reconciler derives: the document is then the reconciled document,
    whatever the status of the task was. On a reconciled document the cycle
    through [completed] and [dropped] is a round trip. *)
Theorem three_clicks_reconcile d i j t :
  task_at d i j = Some t →
  cycleStatus (cycleStatus (cycleStatus d i j) i j) i j = updateTaskStatuses d.
Proof.
  intros Ht.
  set (th := collectTaskHours (events d)).
  set (derived := deriveStatus (getHours th (task_id t))
                    (Js.or (estimated_hours t) 1)).
  destruct (deriveStatus_auto (getHours th (task_id t))
              (Js.or (estimated_hours t) 1)) as [Hnc Hnd].
  assert (task_at (updateTaskStatuses (alter_task (set_status "pool") i j d)) i j
          = Some (set_status derived t)) as Hpool.
  { rewrite task_at_updateTaskStatuses, task_at_alter_task, Ht. simpl.
    by rewrite updateTask_set_status. }
  destruct (decide (status t = "completed")) as [Hc|Hc];
    [|destruct (decide (status t = "dropped")) as [Hd|Hd]].
  - (* completed, dropped, derived, completed *)
    rewrite (cycleStatus_completed d i j t Ht Hc).
    rewrite (cycleStatus_dropped (alter_task (set_status "dropped") i j d)
               i j (set_status "dropped" t))
      by (by rewrite ?task_at_alter_task, ?Ht).
    rewrite alter_task_alter_task.
    rewrite (cycleStatus_auto
               (updateTaskStatuses
                  (alter_task (set_status "pool" ∘ set_status "dropped") i j d))
               i j (set_status derived t)).
    + rewrite (alter_reconcile_alter _ _ id i j d); [by rewrite alter_task_id|].
      intros t0 Ht0. rewrite Ht in Ht0. injection Ht0 as <-. simpl.
      rewrite updateTask_set_status by done. simpl.
      rewrite updateTask_manual by (by left).
      clear - Hc. destruct t; simpl in *. by subst.
    + rewrite task_at_updateTaskStatuses, task_at_alter_task, Ht. simpl.
      by rewrite updateTask_set_status.
    + done.
    + done.
  - (* dropped, derived, completed, dropped *)
    rewrite (cycleStatus_dropped d i j t Ht Hd).
    rewrite (cycleStatus_auto
               (updateTaskStatuses (alter_task (set_status "pool") i j d))
               i j (set_status derived t) Hpool Hnc Hnd).
    rewrite (cycleStatus_completed
               (alter_task (set_status "completed") i j
                  (updateTaskStatuses (alter_task (set_status "pool") i j d)))
               i j (set_status "completed" (set_status derived t)))
      by (by rewrite ?task_at_alter_task, ?Hpool).
    rewrite alter_task_alter_task.
    rewrite (alter_reconcile_alter _ _ id i j d); [by rewrite alter_task_id|].
    intros t0 Ht0. rewrite Ht in Ht0. injection Ht0 as <-. simpl.
    rewrite updateTask_set_status by done. simpl.
    rewrite updateTask_manual by (by right).
    clear - Hd. destruct t; simpl in *. by subst.
  - (* derived, completed, dropped, derived *)
    rewrite (cycleStatus_auto d i j t Ht Hc Hd).
    rewrite (cycleStatus_completed (alter_task (set_status "completed") i j d)
               i j (set_status "completed" t))
      by (by rewrite ?task_at_alter_task, ?Ht).
    rewrite alter_task_alter_task.
    rewrite (cycleStatus_dropped
               (alter_task (set_status "dropped" ∘ set_status "completed") i j d)
               i j (set_status "dropped" t))
      by (by rewrite ?task_at_alter_task, ?Ht).
    rewrite alter_task_alter_task.
    apply reconcile_alter.
    intros t0 Ht0. rewrite Ht in Ht0. injection Ht0 as <-. simpl.
    rewrite updateTask_set_status by done.
    by rewrite updateTask_auto.
Qed.

Lemma three_clicks_reconcile_witness :
  cycleStatus (cycleStatus (cycleStatus unreconciled_plan 0 0) 0 0) 0 0
  = updateTaskStatuses unreconciled_plan.
Proof.
  exact (three_clicks_reconcile unreconciled_plan 0%nat 0%nat
           (mkTask "t1" "report" 2 "pool") eq_refl).
Defined.

(** A click on the icon of a dropped task hands the task back to the
    reconciler: its status becomes what its scheduled hours give ([pool],
    [partial] or [scheduled]), not [pool] as such. *)
Theorem click_on_dropped_rederives d i j t :
  task_at d i j = Some t → status t = "dropped" →
  let total := scheduledHours (default [] (events d)) (task_id t) in
  let estimate := Js.or (estimated_hours t) 1 in
  task_at (cycleStatus d i j) i j =
  Some (set_status
          (if Js.falsy total then "pool"
           else if (total <? estimate)%float then "partial"
           else "scheduled") t).
Proof.
  intros Ht Hd total estimate.
  rewrite (cycleStatus_dropped d i j t Ht Hd).
  rewrite (task_at_reconciled _ i j (set_status "pool" t))
    by (by rewrite ?task_at_alter_task, ?Ht).
  simpl. by rewrite deriveStatus_or0.
Qed.

Lemma click_on_dropped_rederives_witness :
  task_at (cycleStatus
             (plan [mkTask "t1" "report" 2 "dropped"]
                   [block "e1" "t1" (clock 9 0) (clock 10 0)]) 0 0) 0 0
  = Some (mkTask "t1" "report" 2 "partial").
Proof.
  exact (click_on_dropped_rederives
           (plan [mkTask "t1" "report" 2 "dropped"]
                 [block "e1" "t1" (clock 9 0) (clock 10 0)])
           0%nat 0%nat (mkTask "t1" "report" 2 "dropped") eq_refl eq_refl).
Defined.

(** ** The add button *)




Lemma string_app_inj_l (p a b : string) : p +:+ a = p +:+ b → a = b.
Proof.
  induction p as [|c p IH]; simpl; [done|].
  intros [= H]. by apply IH.
Qed.

(** Ids are made from the clock: two tasks added at different milliseconds
    get different ids, and so do two blocks dropped from the same task. Two
    made within one millisecond get the same id. *)
Theorem generated_ids_follow_the_clock title1 hours1 title2 hours2 taskId
    s1 e1 s2 e2 (now1 now2 : N) :
  (task_id (newTask title1 hours1 now1) = task_id (newTask title2 hours2 now2)
   ↔ now1 = now2) ∧
  (cal_id (droppedEvent taskId title1 now1 s1 e1)
   = cal_id (droppedEvent taskId title2 now2 s2 e2) ↔ now1 = now2).
Proof.
  split; split; simpl.
  - intros H. apply (string_app_inj_l "task-") in H.
    by apply (inj pretty).
  - by intros ->.
  - intros H. apply string_app_inj_l in H.
    apply (string_app_inj_l "_") in H. by apply (inj pretty).
  - by intros ->.
Qed.

(** ** More on calendar changes *)

Lemma updateTask_absorb th th0 t :
  updateTask th (updateTask th0 t) = updateTask th t.
Proof.
  destruct (decide (status t = "completed")) as [Hc|Hc];
    [by rewrite (updateTask_manual th0 t) by (by left)|].
  destruct (decide (status t = "dropped")) as [Hd|Hd];
    [by rewrite (updateTask_manual th0 t) by (by right)|].
  rewrite (updateTask_auto th0 t Hc Hd), (updateTask_auto th t Hc Hd).
  destruct (deriveStatus_auto (getHours th0 (task_id t))
              (Js.or (estimated_hours t) 1)) as [Hnc Hnd].
  by rewrite updateTask_set_status.
Qed.

(** The statuses a document had before its events were replaced do not
    matter to the reconciler. *)
Lemma reconcile_absorb evs d :
  updateTaskStatuses (set_events evs (updateTaskStatuses d))
  = updateTaskStatuses (set_events evs d).
Proof.
  destruct d as [ins [gs|] evs0]; [|reflexivity].
  unfold updateTaskStatuses, set_events, set_goals. simpl. do 2 f_equal.
  rewrite <- list_fmap_compose. apply list_fmap_ext. intros _ g _. simpl.
  unfold updateGoal, set_items. simpl. f_equal.
  destruct (items g) as [its|]; [|reflexivity]. simpl. f_equal.
  rewrite <- list_fmap_compose. apply list_fmap_ext. intros _ t _. simpl.
  apply updateTask_absorb.
Qed.

Lemma sortByStart_sorted_id l :
  Forall hasStart l → sortedByStart l → sortByStart l = l.
Proof.
  intros Hl Hs. apply sortedByStart_unique; try done.
  - by apply sortByStart_Forall.
  - by apply sortByStart_sorted.
  - intros k. by apply filter_startsAt_sortByStart.
Qed.

Lemma sortedByStart_filter (P : Event → Prop) `{∀ x, Decision (P x)} l :
  sortedByStart l → sortedByStart (filter P l).
Proof.
  unfold sortedByStart. induction 1 as [|x l Hs IH Hx]; [constructor|].
  rewrite filter_cons. destruct (decide (P x)); [|done].
  constructor; [done|]. by apply Forall_filter_keep.
Qed.

(** Taking events out commutes with sorting. *)
Lemma filter_sortByStart (P : Event → Prop) `{∀ x, Decision (P x)} l :
  Forall hasStart l →
  filter P (sortByStart l) = sortByStart (filter P l).
Proof.
  intros Hl. apply sortedByStart_unique.
  - by apply Forall_filter_keep, sortByStart_Forall.
  - by apply sortByStart_Forall, Forall_filter_keep.
  - by apply sortedByStart_filter, sortByStart_sorted.
  - by apply sortByStart_sorted, Forall_filter_keep.
  - intros k. rewrite filter_comm.
    rewrite !filter_startsAt_sortByStart by (by try apply Forall_filter_keep).
    apply filter_comm.
Qed.




Lemma putEvent_elem evs new :
  ∃ e, e ∈ putEvent evs new ∧ ev_id e = ev_id new ∧
       ev_taskId e = ev_taskId new ∧ ev_type e = ev_type new ∧
       ev_start e = ev_start new ∧ ev_end e = ev_end new.
Proof.
  unfold putEvent. destruct (findIndex (ev_id new) evs) as [i|] eqn:Hi.
  - destruct (findIndex_Some _ _ _ Hi) as (old & Hold & _). rewrite Hold.
    exists (spread old new). split; [|done].
    apply list_elem_of_lookup. exists i.
    apply list_lookup_insert_eq. by eapply lookup_lt_Some.
  - exists new. split; [|done]. apply elem_of_app. right. by left.
Qed.



Lemma putEvent_ids evs new :
  ev_id <$> putEvent evs new
  = if findIndex (ev_id new) evs is Some _ then ev_id <$> evs
    else (ev_id <$> evs) ++ [ev_id new].
Proof.
  unfold putEvent. destruct (findIndex (ev_id new) evs) as [i|] eqn:Hi.
  - destruct (findIndex_Some _ _ _ Hi) as (old & Hold & Hid). rewrite Hold.
    rewrite list_fmap_insert. apply list_insert_id.
    rewrite list_lookup_fmap, Hold. simpl. by rewrite Hid.
  - by rewrite fmap_app.
Qed.

Lemma putEvent_NoDup evs new :
  NoDup (ev_id <$> evs) → NoDup (ev_id <$> putEvent evs new).
Proof.
  intros Hnd. rewrite putEvent_ids.
  destruct (findIndex (ev_id new) evs) as [i|] eqn:Hi; [done|].
  apply NoDup_app. split; [done|]. split; [|apply NoDup_singleton].
  intros x Hx Hin. apply list_elem_of_singleton in Hin as ->.
  apply list_elem_of_fmap in Hx as (e & He & Hin).
  apply findIndex_None in Hi. rewrite Forall_forall in Hi.
  by apply (Hi e Hin).
Qed.

Lemma NoDup_fmap_filter {A B} (f : A → B) (P : A → Prop)
    `{∀ x, Decision (P x)} (l : list A) :
  NoDup (f <$> l) → NoDup (f <$> filter P l).
Proof.
  induction l as [|x l IH]; [done|]. simpl.
  rewrite NoDup_cons. intros [Hx Hl]. rewrite filter_cons.
  destruct (decide (P x)); [|by apply IH]. simpl.
  apply NoDup_cons. split; [|by apply IH].
  intros Hin. apply Hx.
  apply list_elem_of_fmap in Hin as (y & Hy & Hin).
  apply list_elem_of_filter in Hin as [_ Hin].
  rewrite Hy. by apply list_elem_of_fmap_2.
Qed.

(** The calendar callbacks keep the ids of the events distinct: a change
    replaces an event by one with its id or adds one whose id no stored
    event has, and a deletion only takes events out. *)
Theorem calendar_keeps_ids_distinct yaml_dump v g event :
  NoDup (ev_id <$> default [] (events (yamlData v))) →
  NoDup (ev_id <$> default []
           (events (yamlData (calendarCallback yaml_dump v g event).1))).
Proof.
  intros Hnd.
  assert (∀ action,
    NoDup (ev_id <$> default []
             (events (yamlData (handleEventChange yaml_dump v event action).1))))
    as Hchange.
  { intros action. unfold handleEventChange.
    destruct (file v); simpl; [|done].
    unfold applyCalendarChange.
    destruct (events (yamlData v)) as [evs|] eqn:He; simpl; [|by rewrite He].
    rewrite events_updateTaskStatuses. simpl.
    rewrite sortByStart_perm. by apply putEvent_NoDup. }
  destruct g as [| | |confirmed]; simpl; try apply Hchange.
  unfold eventClick.
  destruct (decide (cal_type event = Some "outlook")); [done|].
  destruct confirmed; [|done].
  destruct (events (yamlData v)) as [evs|] eqn:He; simpl; [|by rewrite He].
  rewrite events_updateTaskStatuses. simpl.
  by apply NoDup_fmap_filter.
Qed.

Lemma calendar_keeps_ids_distinct_witness :
  let ids g event :=
    ev_id <$> default []
      (events (yamlData (calendarCallback no_dump (open_view two_blocks_plan)
                           g event).1)) in
  NoDup (ids EventReceive
           (droppedEvent "t1" "report" 1771236000000 (clockMs 11 0) None)) ∧
  NoDup (ids EventDrop move_second_block) ∧
  NoDup (ids (EventClick true) move_second_block).
Proof.
  assert (NoDup (ev_id <$> default [] (events (yamlData (open_view two_blocks_plan)))))
    as Hnd.
  { simpl. apply NoDup_cons. split; [|apply NoDup_singleton].
    intros Hin. apply list_elem_of_singleton in Hin. discriminate Hin. }
  intros ids. repeat split.
  - exact (calendar_keeps_ids_distinct no_dump (open_view two_blocks_plan)
             EventReceive
             (droppedEvent "t1" "report" 1771236000000 (clockMs 11 0) None) Hnd).
  - exact (calendar_keeps_ids_distinct no_dump (open_view two_blocks_plan)
             EventDrop move_second_block Hnd).
  - exact (calendar_keeps_ids_distinct no_dump (open_view two_blocks_plan)
             (EventClick true) move_second_block Hnd).
Defined.

Lemma spread_spread old new : spread (spread old new) new = spread old new.
Proof. reflexivity. Qed.







Lemma filter_all {A} (P : A → Prop) `{∀ x, Decision (P x)} (l : list A) :
  Forall P l → filter P l = l.
Proof.
  induction 1 as [|x l Hx _ IH]; [done|].
  by rewrite filter_cons, decide_True, IH.
Qed.

(** Dropping a block and deleting it again: when no stored event had its id
    and every event has a time as [start], the document afterwards is the one
    before with its events sorted and its statuses reconciled; on a sorted,
    reconciled document the two gestures cancel. *)
Theorem drop_then_delete yaml_dump v event action evs :
  file v = true → events (yamlData v) = Some evs →
  Forall hasStart evs →
  findIndex (cal_id event) evs = None →
  cal_type event ≠ Some "outlook" →
  let after :=
    yamlData (eventClick yaml_dump
                (handleEventChange yaml_dump v event action).1 event true).1 in
  after = updateTaskStatuses (set_events (Some (sortByStart evs)) (yamlData v)) ∧
  (sortedByStart evs → updateTaskStatuses (yamlData v) = yamlData v →
   after = yamlData v).
Proof.
  intros Hf He Hst Hfresh Hty after.
  assert (after
          = updateTaskStatuses (set_events (Some (sortByStart evs)) (yamlData v)))
    as Hafter.
  { subst after. unfold handleEventChange, applyCalendarChange.
    rewrite Hf, He. simpl. unfold eventClick.
    rewrite decide_False by done. simpl.
    rewrite events_updateTaskStatuses. simpl.
    rewrite reconcile_absorb. unfold set_events at 2. simpl.
    unfold set_events. simpl. do 3 f_equal.
    assert (putEvent evs (newEventData event) = evs ++ [newEventData event])
      as -> by (unfold putEvent; simpl; by rewrite Hfresh).
    rewrite filter_sortByStart.
    2:{ apply Forall_app. split; [done|].
        constructor; [apply hasStart_newEventData | constructor]. }
    rewrite filter_app, filter_cons, decide_False by (simpl; tauto).
    rewrite filter_nil, app_nil_r.
    by rewrite filter_all by (by apply findIndex_None). }
  split; [done|].
  intros Hsorted Hrec. rewrite Hafter.
  rewrite sortByStart_sorted_id by done.
  rewrite <- He.
  replace (set_events (events (yamlData v)) (yamlData v)) with (yamlData v)
    by (by destruct (yamlData v)).
  done.
Qed.

Lemma drop_then_delete_witness :
  let event := droppedEvent "t1" "report" 1771236000000
                            (clockMs 11 0) (Some (clockMs 12 0)) in
  let after :=
    yamlData (eventClick no_dump
                (handleEventChange no_dump (open_view settled_plan)
                   event Receive).1 event true).1 in
  after = updateTaskStatuses
            (set_events
               (Some (sortByStart [block "e1" "t1" (clock 9 0) (clock 10 0)]))
               settled_plan) ∧
  (sortedByStart [block "e1" "t1" (clock 9 0) (clock 10 0)] →
   updateTaskStatuses settled_plan = settled_plan → after = settled_plan).
Proof.
  apply (drop_then_delete no_dump (open_view settled_plan)
           (droppedEvent "t1" "report" 1771236000000
                         (clockMs 11 0) (Some (clockMs 12 0)))
           Receive [block "e1" "t1" (clock 9 0) (clock 10 0)]).
  - reflexivity.
  - reflexivity.
  - repeat constructor; by eexists.
  - vm_compute. reflexivity.
  - discriminate.
Defined.

(** A block dropped from the panel is stored linked to the task it was
    dragged from, with a start and an end, so the reconciler counts it for
    that task (the task id being a non-empty string). *)
Theorem panel_drop_is_linked yaml_dump v taskId title now start end_ evs :
  file v = true → events (yamlData v) = Some evs → taskId ≠ "" →
  ∃ evs' e,
    events (yamlData (calendarCallback yaml_dump v EventReceive
                        (droppedEvent taskId title now start end_)).1)
      = Some evs' ∧
    e ∈ evs' ∧ ev_id e = taskId +:+ "_" +:+ pretty now ∧
    linkedTo taskId e ∧ hasDates e.
Proof.
  intros Hf He Hid. simpl.
  set (event := droppedEvent taskId title now start end_).
  destruct (putEvent_elem evs (newEventData event))
    as (e & Hin & Heid & Htid & Hty & Hs & Hend).
  exists (sortByStart (putEvent evs (newEventData event))), e.
  split; [by apply events_handleEventChange|].
  split; [by rewrite sortByStart_perm|].
  split; [done|]. split.
  - split; [done|]. unfold linkedTaskId. rewrite Htid. simpl.
    unfold calTaskId. simpl. by destruct taskId.
  - split; [by rewrite Hs|]. rewrite Hend. simpl.
    unfold calEnd. by destruct end_.
Qed.

Lemma panel_drop_is_linked_witness :
  ∃ evs' e,
    events (yamlData (calendarCallback no_dump (open_view settled_plan)
                        EventReceive
                        (droppedEvent "t1" "report" 1771236000000
                           (clockMs 11 0) None)).1) = Some evs' ∧
    e ∈ evs' ∧ ev_id e = "t1" +:+ "_" +:+ pretty 1771236000000%N ∧
    linkedTo "t1" e ∧ hasDates e.
Proof.
  exact (panel_drop_is_linked no_dump (open_view settled_plan) "t1" "report"
           1771236000000 (clockMs 11 0) None
           [block "e1" "t1" (clock 9 0) (clock 10 0)]
           eq_refl eq_refl ltac:(discriminate)).
Defined.

Lemma calTaskId_movedEvent ev start end_ :
  calTaskId (movedEvent (calendarInput ev) start end_) = linkedTaskId ev.
Proof.
  unfold calTaskId, movedEvent, calendarInput. simpl.
  destruct (Js.str_truthy (linkedTaskId ev)) eqn:E; [done|].
  unfold linkedTaskId in *.
  destruct (ev_taskId ev) as [t|]; [|by destruct (ev_id ev)].
  destruct (Js.str_truthy t) eqn:Et; [by rewrite Et in E|].
  by destruct (ev_id ev).
Qed.

(** Moving or resizing an event the view loaded from the document keeps its
    link. The events afterwards are a rearrangement of the stored events
    with the event replaced by a record that has the same [taskId]-or-[id],
    so that a block of a task stays a block of that task, with a [start] and
    an [end]; the record keeps the id, the title and the other properties,
    and its color is the stored one, [#3b82f6] when there was none. *)
Theorem move_keeps_task_link yaml_dump v evs i old start end_ action :
  file v = true → events (yamlData v) = Some evs →
  findIndex (ev_id old) evs = Some i → evs !! i = Some old →
  ∃ new evs',
    events (yamlData (handleEventChange yaml_dump v
                        (movedEvent (calendarInput old) start end_) action).1)
      = Some evs' ∧
    evs' ≡ₚ <[i := new]> evs ∧
    linkedTaskId new = linkedTaskId old ∧
    (∀ id, linkedTo id old → linkedTo id new ∧ hasDates new) ∧
    ev_id new = ev_id old ∧ ev_title new = ev_title old ∧
    ev_extra new = ev_extra old ∧ ev_color new = Some (colorOr old).
Proof.
  intros Hf He Hi Hold.
  set (event := movedEvent (calendarInput old) start end_).
  assert (linkedTaskId (spread old (newEventData event)) = linkedTaskId old)
    as Hlink.
  { change (linkedTaskId (spread old (newEventData event)))
      with (if Js.str_truthy (calTaskId event) then calTaskId event
            else ev_id old).
    unfold event. rewrite calTaskId_movedEvent.
    destruct (Js.str_truthy (linkedTaskId old)) eqn:E; [done|].
    unfold linkedTaskId in *.
    destruct (ev_taskId old) as [t|]; [|done].
    destruct (Js.str_truthy t) eqn:Et; [|done]. by rewrite Et in E. }
  exists (spread old (newEventData event)),
         (sortByStart (<[i := spread old (newEventData event)]> evs)).
  split.
  { rewrite (events_handleEventChange yaml_dump v event action evs Hf He).
    unfold putEvent. simpl. by rewrite Hi, Hold. }
  split; [apply sortByStart_perm|].
  split; [exact Hlink|].
  split.
  { intros id [_ Hid]. split.
    - split; [reflexivity | by rewrite Hlink].
    - split; simpl; [reflexivity|]. unfold calEnd. by destruct (cal_end event). }
  repeat split; simpl.
  unfold event, calColor, movedEvent, calendarInput, colorOr. simpl.
  destruct (ev_color old) as [c|]; [|done].
  by destruct (Js.str_truthy c) eqn:Ec; rewrite ?Ec.
Qed.

Lemma move_keeps_task_link_witness :
  ∃ new evs',
    events (yamlData (handleEventChange no_dump (open_view two_blocks_plan)
                        (movedEvent
                           (calendarInput
                              (block "e2" "t1" (clock 10 0) (clock 11 0)))
                           (clockMs 8 0) (Some (clockMs 9 0))) Update).1)
      = Some evs' ∧
    evs' ≡ₚ <[1%nat := new]> [block "e1" "t1" (clock 9 0) (clock 10 0);
                              block "e2" "t1" (clock 10 0) (clock 11 0)] ∧
    linkedTaskId new = "t1" ∧
    (∀ id, linkedTo id (block "e2" "t1" (clock 10 0) (clock 11 0)) →
           linkedTo id new ∧ hasDates new) ∧
    ev_id new = "e2" ∧ ev_title new = "block" ∧
    ev_extra new = [] ∧ ev_color new = Some defaultColor.
Proof.
  exact (move_keeps_task_link no_dump (open_view two_blocks_plan)
           [block "e1" "t1" (clock 9 0) (clock 10 0);
            block "e2" "t1" (clock 10 0) (clock 11 0)] 1%nat
           (block "e2" "t1" (clock 10 0) (clock 11 0))
           (clockMs 8 0) (Some (clockMs 9 0)) Update
           eq_refl eq_refl eq_refl eq_refl).
Defined.

(** ** More on the sync *)

Lemma sortByStart_app_sorted a b :
  Forall hasStart a → Forall hasStart b →
  sortByStart (sortByStart a ++ b) = sortByStart (a ++ b).
Proof.
  intros Ha Hb.
  assert (Forall hasStart (sortByStart a ++ b)) as Hab
    by (apply Forall_app; split; [by apply sortByStart_Forall | done]).
  assert (Forall hasStart (a ++ b)) as Hab' by by apply Forall_app.
  apply sortedByStart_unique.
  - by apply sortByStart_Forall.
  - by apply sortByStart_Forall.
  - by apply sortByStart_sorted.
  - by apply sortByStart_sorted.
  - intros k. rewrite !filter_startsAt_sortByStart by done.
    rewrite !filter_app. by rewrite filter_startsAt_sortByStart.
Qed.

(** A sync replaces what an earlier sync brought: after two syncs the
    document is what the second alone would have made it, the entries of the
    first all being of type [outlook] and every event concerned having a
    time as [start]. *)
Theorem later_sync_replaces_earlier d batch1 batch2 :
  Forall (λ ev, ev_type ev = "outlook") batch1 →
  Forall hasStart (filter notOutlook (default [] (events d))) →
  Forall hasStart batch1 → Forall hasStart batch2 →
  mergeExternal (mergeExternal d batch1) batch2 = mergeExternal d batch2.
Proof.
  intros Hout Hk H1 H2.
  unfold mergeExternal, set_events. simpl. do 2 f_equal.
  rewrite filter_sortByStart by (by apply Forall_app).
  rewrite filter_app, filter_idem, (filter_notOutlook_outlook batch1 Hout).
  rewrite app_nil_r. by apply sortByStart_app_sorted.
Qed.

Lemma later_sync_replaces_earlier_witness :
  mergeExternal
    (mergeExternal settled_plan [meeting "o1" (clock 8 0) (clock 9 0)])
    [meeting "o2" (clock 13 0) (clock 14 0)]
  = mergeExternal settled_plan [meeting "o2" (clock 13 0) (clock 14 0)].
Proof.
  apply (later_sync_replaces_earlier settled_plan
           [meeting "o1" (clock 8 0) (clock 9 0)]
           [meeting "o2" (clock 13 0) (clock 14 0)]).
  - repeat constructor.
  - vm_compute. repeat constructor; by eexists.
  - repeat constructor; by eexists.
  - repeat constructor; by eexists.
Defined.

(** After a sync the events of type [outlook] are those of the batch: none
    of the document's survives. *)
Theorem mergeExternal_outlook_from_batch d batch :
  filter (λ ev, ev_type ev = "outlook")
    (default [] (events (mergeExternal d batch)))
  ≡ₚ filter (λ ev, ev_type ev = "outlook") batch.
Proof.
  unfold mergeExternal. simpl.
  rewrite sortByStart_perm, filter_app, list_filter_filter.
  rewrite filter_nil_Forall; [done|].
  apply Forall_forall. intros ev _ [Ho Hn]. by apply Hn.
Qed.

(** A sync that brings nothing takes the events of type [outlook] out and
    leaves the others in the order they had, on a document whose events were
    sorted and all have a time as [start]. *)
Theorem empty_sync_removes_outlook d evs :
  events d = Some evs → Forall hasStart evs → sortedByStart evs →
  events (mergeExternal d []) = Some (filter notOutlook evs).
Proof.
  intros He Hst Hs. unfold mergeExternal. simpl. rewrite He. simpl.
  rewrite app_nil_r. f_equal.
  apply sortByStart_sorted_id.
  - by apply Forall_filter_keep.
  - by apply sortedByStart_filter.
Qed.

Lemma empty_sync_removes_outlook_witness :
  events (mergeExternal
            (plan [] [meeting "o1" (clock 8 0) (clock 9 0);
                      block "e1" "t1" (clock 9 0) (clock 10 0)]) [])
  = Some (filter notOutlook
            [meeting "o1" (clock 8 0) (clock 9 0);
             block "e1" "t1" (clock 9 0) (clock 10 0)]).
Proof.
  apply (empty_sync_removes_outlook
           (plan [] [meeting "o1" (clock 8 0) (clock 9 0);
                     block "e1" "t1" (clock 9 0) (clock 10 0)])).
  - reflexivity.
  - repeat constructor; by eexists.
  - repeat constructor; eexists _, _; (repeat split; [reflexivity..|]);
      vm_compute; discriminate.
Defined.

(** ** Modes and view data *)

(** Entering source mode and leaving it without an edit: the text shown is
    the serialized document, it is what gets written, and the view is back
    in visual mode with the document it had (the serializer being able to
    read its own output). *)
Theorem source_mode_round_trip yaml_load yaml_dump v :
  isSourceMode v = false →
  yaml_load (yaml_dump (yamlData v)) ≠ None →
  let entered := toggleModeClick yaml_load yaml_dump v in
  let left := toggleModeClick yaml_load yaml_dump entered.1 in
  sourceText entered.1 = yaml_dump (yamlData v) ∧ entered.2 = [] ∧
  yamlData entered.1 = yamlData v ∧
  left.1 = {| file := file v; yamlData := yamlData v; isSourceMode := false;
              sourceText := yaml_dump (yamlData v); shown := VisualPane |} ∧
  left.2 = save v (yaml_dump (yamlData v)).
Proof.
  intros Hm Hload entered left.
  assert (entered
          = ({| file := file v; yamlData := yamlData v; isSourceMode := true;
                sourceText := yaml_dump (yamlData v); shown := SourcePane |},
             [])) as He
    by (subst entered; unfold toggleModeClick; by rewrite Hm).
  subst left. rewrite He. simpl. repeat split.
  - unfold toggleModeClick. simpl.
    by destruct (yaml_load (yaml_dump (yamlData v))).
  - unfold toggleModeClick. simpl.
    by destruct (yaml_load (yaml_dump (yamlData v))).
Qed.

Lemma source_mode_round_trip_witness :
  let v := mkView true settled_plan false "" VisualPane in
  let entered := toggleModeClick (λ _, Some emptyDocument) no_dump v in
  let left := toggleModeClick (λ _, Some emptyDocument) no_dump entered.1 in
  sourceText entered.1 = no_dump (yamlData v) ∧ entered.2 = [] ∧
  yamlData entered.1 = yamlData v ∧
  left.1 = {| file := file v; yamlData := yamlData v; isSourceMode := false;
              sourceText := no_dump (yamlData v); shown := VisualPane |} ∧
  left.2 = save v (no_dump (yamlData v)).
Proof.
  exact (source_mode_round_trip (λ _, Some emptyDocument) no_dump
           (mkView true settled_plan false "" VisualPane)
           eq_refl ltac:(discriminate)).
Defined.

(** Given its own data back, the view stays as it is, in either mode: in
    source mode the text is the one shown, in visual mode the document read
    back is the one serialized (the serializer reading its own output back),
    and the calendar is rebuilt from it. *)
Theorem view_data_round_trip yaml_load yaml_dump s :
  (isSourceMode (scr_view s) = false →
   yaml_load (yaml_dump (yamlData (scr_view s)))
   = Some (Some (yamlData (scr_view s)))) →
  let s' := setViewData yaml_load s (getViewData yaml_dump (scr_view s)) in
  scr_view s' = scr_view s ∧
  scr_calendar s' =
    (if isSourceMode (scr_view s) then scr_calendar s
     else calendarInput <$> default [] (events (yamlData (scr_view s)))).
Proof.
  intros Hload s'. subst s'. unfold setViewData, getViewData.
  destruct s as [v cal]. simpl in *.
  destruct (isSourceMode v) eqn:Hm; simpl.
  - split; [|done]. destruct v; simpl in *. by subst.
  - rewrite Hload by done. simpl. split; [|done]. by destruct v.
Qed.

Lemma view_data_round_trip_witness :
  let s := mkScreen (open_view settled_plan) [] in
  let s' := setViewData (λ _, Some (Some settled_plan)) s
              (getViewData no_dump (scr_view s)) in
  scr_view s' = scr_view s ∧
  scr_calendar s' =
    (if isSourceMode (scr_view s) then scr_calendar s
     else calendarInput <$> default [] (events (yamlData (scr_view s)))).
Proof.
  exact (view_data_round_trip (λ _, Some (Some settled_plan)) no_dump
           (mkScreen (open_view settled_plan) []) (λ _, eq_refl)).
Defined.

(** ** The hours shown in the panel *)

(** The total the panel shows is the plain sum of the hours of the events
    of its [filter] that have a [start] and an [end]. *)
Lemma foldl_guarded_sum (l : list Event) (z : float) :
  foldl (λ total e,
           if Js.date_truthy (ev_start e) && Js.date_truthy (ev_end e)
           then (total + eventHours e)%float else total) z l
  = foldl (λ total e, (total + eventHours e)%float) z (filter hasDates l).
Proof.
  revert z. induction l as [|e l IH]; intros z; [done|]. simpl.
  rewrite filter_cons. destruct (decide (hasDates e)) as [[Hs He]|Hn].
  - rewrite Hs, He. simpl. apply IH.
  - destruct (Js.date_truthy (ev_start e)) eqn:Hs;
      destruct (Js.date_truthy (ev_end e)) eqn:He; simpl; try apply IH.
    exfalso. apply Hn. by split.
Qed.

Lemma filter_filter_and {A} (P Q : A → Prop) `{∀ x, Decision (P x)}
    `{∀ x, Decision (Q x)} (l : list A) :
  filter Q (filter P l) = filter (λ x, P x ∧ Q x) l.
Proof.
  induction l as [|x l IH]; [done|].
  rewrite !filter_cons.
  destruct (decide (P x)) as [HP|HP].
  - rewrite filter_cons.
    destruct (decide (Q x)) as [HQ|HQ].
    + rewrite decide_True by done. by rewrite IH.
    + rewrite decide_False by tauto. done.
  - rewrite decide_False by tauto. done.
Qed.

Lemma filter_ext_in {A} (P Q : A → Prop) `{∀ x, Decision (P x)}
    `{∀ x, Decision (Q x)} (l : list A) :
  (∀ x, x ∈ l → P x ↔ Q x) → filter P l = filter Q l.
Proof.
  induction l as [|x l IH]; intros Heq; [done|].
  rewrite !filter_cons.
  assert (P x ↔ Q x) as Hx by (apply Heq; left).
  rewrite IH by (intros y Hy; apply Heq; by right).
  destruct (decide (P x)) as [HP|HP].
  - by rewrite decide_True by tauto.
  - by rewrite decide_False by tauto.
Qed.

Lemma linkedTo_panelCounts id ev : linkedTo id ev → panelCounts id ev.
Proof.
  unfold linkedTo, panelCounts, linkedTaskId.
  intros [Hty Hid]. split; [done|].
  destruct (ev_taskId ev) as [t|]; [|by right].
  destruct (Js.str_truthy t); [left; by rewrite Hid | by right].
Qed.

Lemma panelCounts_cases id ev :
  panelCounts id ev →
  linkedTo id ev ∨
  (ev_id ev = id ∧ ∃ t, ev_taskId ev = Some t ∧ t ≠ id ∧ t ≠ "") ∨
  (id = "" ∧ ev_taskId ev = Some "" ∧ ev_id ev ≠ "").
Proof.
  unfold linkedTo, panelCounts, linkedTaskId.
  intros [Hty [Htid|Hid]].
  - rewrite Htid. destruct id as [|c id]; simpl; [|by left].
    destruct (decide (ev_id ev = "")) as [He|He]; [by left|].
    right. by right.
  - destruct (ev_taskId ev) as [t|] eqn:Htid; [|by left].
    destruct t as [|c t]; simpl; [by left|].
    destruct (decide (String c t = id)) as [Ht|Ht]; [by left|].
    right. left. split; [done|]. by exists (String c t).
Qed.

(** The hours the panel shows for a task. Unless the task's status is
    [scheduled] or [partial] the total is [0], whatever the events are. For
    such a status it is the plain sum of the hours of the events [summed]:
    every event the reconciler counts for the task is among them; so is an
    event whose own id is the task's id although its [taskId] names another
    task (and, for an empty task id, an event with an empty [taskId]),
    which the reconciler does not count for the task. When the task's id is
    not empty and every event with that id is linked to the task, the events
    summed are exactly those the reconciler counts, in the same order. *)
Theorem panel_counts_what_reconciler_counts evs task :
  let id := task_id task in
  let counted := filter (λ e, linkedTo id e ∧ hasDates e) (default [] evs) in
  let summed := filter (λ e, panelCounts id e ∧ hasDates e) (default [] evs) in
  (status task ≠ "scheduled" → status task ≠ "partial" →
   totalScheduledHours evs task = 0%float) ∧
  (status task = "scheduled" ∨ status task = "partial" →
   totalScheduledHours evs task
   = foldl (λ total e, (total + eventHours e)%float) 0%float summed) ∧
  (∀ ev, ev ∈ counted → ev ∈ summed) ∧
  (∀ ev, ev ∈ summed →
     ev ∈ counted ∨
     (ev_id ev = id ∧ ∃ t, ev_taskId ev = Some t ∧ t ≠ id ∧ t ≠ "") ∨
     (id = "" ∧ ev_taskId ev = Some "" ∧ ev_id ev ≠ "")) ∧
  (id ≠ "" →
   (∀ ev, ev ∈ default [] evs → ev_id ev = id → linkedTaskId ev = id) →
   summed = counted).
Proof.
  intros id counted summed. subst counted summed.
  split; [|split; [|split; [|split]]].
  - intros Hs Hp. unfold totalScheduledHours, panelShowsHours.
    by rewrite !bool_decide_eq_false_2.
  - intros Hst. unfold totalScheduledHours, panelShowsHours.
    replace (bool_decide (status task = "scheduled")
             || bool_decide (status task = "partial")) with true.
    + rewrite foldl_guarded_sum. by rewrite filter_filter_and.
    + symmetry. apply orb_true_iff.
      destruct Hst as [H|H]; [left | right]; by apply bool_decide_eq_true_2.
  - intros ev Hin. apply list_elem_of_filter in Hin as [[Hl Hd] Hin].
    apply list_elem_of_filter. split; [|done].
    split; [by apply linkedTo_panelCounts | done].
  - intros ev Hin. apply list_elem_of_filter in Hin as [[Hp Hd] Hin].
    destruct (panelCounts_cases id ev Hp) as [Hl|[Hc|Hc]].
    + left. apply list_elem_of_filter. by split.
    + right. by left.
    + right. by right.
  - intros Hid Hown. apply filter_ext_in. intros ev Hin.
    split; intros [Hp Hd]; (split; [|done]).
    + destruct (panelCounts_cases id ev Hp)
        as [Hl|[[Hown' (t & Ht & Hne & Hne')]|[He _]]]; [done | | done].
      exfalso. specialize (Hown ev Hin Hown').
      unfold linkedTaskId in Hown. rewrite Ht in Hown.
      destruct t as [|c t]; [done|]. simpl in Hown. done.
    + by apply linkedTo_panelCounts.
Qed.
